(** * FrequencyGenerator: the Timer 4 divisor search of [FrequencyGenerator::set]

    A shallow embedding of [src/FrequencyGenerator.cpp] (ATmega32U4, avr-gcc)
    and the properties of its frequency-to-divisor search.

    Integer types are the ones of avr-gcc: [byte] is 8 bits unsigned, [int]
    and [unsigned] are 16 bits, [long] is 32 bits.  Every C value is a [Z];
    each operation is followed by the wrap-around of its C type (two's
    complement for the signed types).  The lemmas below show that on the
    paths [set] takes with a positive frequency no signed operation leaves
    its range and no divisor is zero. *)

From Stdlib Require Import Ascii String.
From Stdlib Require Import ZArith List Bool Lia.
From Equations Require Import Equations.
Import ListNotations.
Local Open Scope Z_scope.

(** ** Machine integers *)

Module AVR.

(** [byte] (uint8_t) *)
Definition wrap_byte (z : Z) : Z := z mod 2 ^ 8.

(** [unsigned] (16 bits) *)
Definition wrap_unsigned (z : Z) : Z := z mod 2 ^ 16.

(** [int] (16 bits, two's complement) *)
Definition wrap_int (z : Z) : Z := (z + 2 ^ 15) mod 2 ^ 16 - 2 ^ 15.

(** [long] (32 bits, two's complement) *)
Definition wrap_long (z : Z) : Z := (z + 2 ^ 31) mod 2 ^ 32 - 2 ^ 31.

End AVR.

(** Arithmetic at type [long]; [/] truncates toward zero as in C. *)
Module Long.
Import AVR.

Definition add (a b : Z) : Z := wrap_long (a + b).
Definition sub (a b : Z) : Z := wrap_long (a - b).
Definition mul (a b : Z) : Z := wrap_long (a * b).
Definition div (a b : Z) : Z := wrap_long (Z.quot a b).
Definition neg (a : Z) : Z := wrap_long (- a).

End Long.

Import AVR.

(** ** Build-time constants *)

(** Modelled from the spec: the macro [F_CPU] is supplied by the Arduino build
    for the board and is not defined in the repository; the spec fixes the base
    crystal at 16,000,000 (the source comments say "16MHz" as well). *)
Definition F_CPU : Z := 16000000.

(** [static byte CKM[]={1,6,4,3}]: clock pll multipliers (16,96,64,48 MHz). *)
Definition CKM : list Z := [1; 6; 4; 3].

(** [CKM[pll]] *)
Definition CKM_at (pll : nat) : Z := nth pll CKM 0.

(** Bit numbers of TCCR4A in the ATmega32U4 device header. *)
Definition PWM4A : Z := 1.
Definition COM4A0 : Z := 6.

(** ** The search loop of [set] *)

(** [while (CV > 1) { lg++;  CV=CV>>1; }], returning [lg] at the exit. *)
Equations? log2_loop (CV lg : Z) : Z by wf (Z.to_nat CV) lt :=
  log2_loop CV lg with Z_gt_dec CV 1 => {
    | left _ := log2_loop (Z.shiftr CV 1) (wrap_byte (lg + 1));
    | right _ := lg }.
Proof.
  rewrite Z.shiftr_div_pow2 by lia.
  apply Z2Nat.inj_lt; try lia.
  - apply Z.div_pos; lia.
  - apply Z.div_lt; lia.
Qed.

(** [lg=0; if (CV != 0) { while (CV > 1) { lg++;  CV=CV>>1; } lg++; }] *)
Definition log2_of (CV : Z) : Z :=
  if CV =? 0 then 0 else wrap_byte (log2_loop CV 0 + 1).

(** [CK=F_CPU*CKM[pll]] *)
Definition clock (pll : nat) : Z := Long.mul F_CPU (CKM_at pll).

(** [CV=CK / Freq / 1024] *)
Definition estimate (Freq : Z) (pll : nat) : Z :=
  Long.div (Long.div (clock pll) Freq) 1024.

(** The value of [lg] when the loop body reaches line 174. *)
Definition shift_of (Freq : Z) (pll : nat) : Z := log2_of (estimate Freq pll).

(** [PS=1<<lg]: the shift is done at type [int], the result stored in an
    [unsigned]. *)
Definition prescaler (lg : Z) : Z := wrap_unsigned (wrap_int (Z.shiftl 1 lg)).

(** [cnt=((CK*2/PS/Freq)+1)/2], computed at type [long] and stored in an
    [unsigned]. *)
Definition count_of (Freq : Z) (pll : nat) (lg : Z) : Z :=
  let CK := clock pll in
  let PS := prescaler lg in
  wrap_unsigned
    (Long.div (Long.add (Long.div (Long.div (Long.mul CK 2) PS) Freq) 1) 2).

(** [dif=(CK - ((long)PS*(long)cnt*Freq));  dif=dif/((long)CKM[pll]);
    if (dif<0) dif=-dif;] *)
Definition error_of (Freq : Z) (pll : nat) (lg cnt : Z) : Z :=
  let CK := clock pll in
  let PS := prescaler lg in
  let dif := Long.sub CK (Long.mul (Long.mul PS cnt) Freq) in
  let dif := Long.div dif (CKM_at pll) in
  if dif <? 0 then Long.neg dif else dif.

(** What one pass of the loop body offers to the comparison of line 198. *)
Record candidate : Type := mkCandidate { c_lg : Z; c_cnt : Z; c_dif : Z }.

(** The first of the two [continue] statements (line 174): [None] is
    [continue], [Some lg] falls through with the shift. *)
Definition shift_stage (Freq : Z) (pll : nat) : option Z :=
  let lg := shift_of Freq pll in
  if (pll =? 1)%nat || (lg >? 14) then None else Some lg.

(** Lines 176-189: the second [continue] (line 179) is [None]. *)
Definition count_stage (Freq : Z) (pll : nat) (lg : Z) : option candidate :=
  let cnt := count_of Freq pll lg in
  if (cnt <? 4) || (cnt >? 0x3FF) then None
  else Some (mkCandidate lg cnt (error_of Freq pll lg cnt)).

(** Lines 162-189 for one value of [pll]. *)
Definition evaluate (Freq : Z) (pll : nat) : option candidate :=
  match shift_stage Freq pll with
  | None => None
  | Some lg => count_stage Freq pll lg
  end.

(** The locals [svPLL], [svLG], [svCNT], [svDIF]. *)
Record saved : Type := mkSaved { svPLL : nat; svLG : Z; svCNT : Z; svDIF : Z }.

(** [svPLL=0,svLG=0], [svCNT=0], and [svDIF=0x7FFFFFFFL] of line 159. *)
Definition saved_init : saved := mkSaved 0 0 0 0x7FFFFFFF.

(** One iteration of the [for] loop, ending with
    [if (dif<svDIF) { svPLL=pll; svLG=lg; svCNT=cnt; svDIF=dif; }]. *)
Definition try_pll (Freq : Z) (sv : saved) (pll : nat) : saved :=
  match evaluate Freq pll with
  | None => sv
  | Some c =>
      if c_dif c <? svDIF sv then mkSaved pll (c_lg c) (c_cnt c) (c_dif c)
      else sv
  end.

(** [for (pll=0; pll<sizeof(CKM); pll++)] *)
Definition search (Freq : Z) : saved :=
  fold_left (try_pll Freq) (seq 0 (length CKM)) saved_init.

(** Line 211:
    [((((F_CPU*CKM[svPLL])*2)/((long)(1<<svLG)*(long)svCNT))+1)/2] *)
Definition actual_of (sv : saved) : Z :=
  Long.div
    (Long.add
       (Long.div (Long.mul (Long.mul F_CPU (CKM_at (svPLL sv))) 2)
                 (Long.mul (wrap_int (Z.shiftl 1 (svLG sv))) (svCNT sv)))
       1)
    2.

(** ** The generator object and the timer registers *)

Record FrequencyGenerator : Type := mkGen { _FreqGenVal : Z }.

(** [long _FreqGenVal=0;] *)
Definition initial : FrequencyGenerator := mkGen 0.

Inductive register : Type :=
  TCCR4A | TCCR4B | TCCR4D | PLLFRQ | OCR4A | OCR4C | TCNT4H.

Inductive pin_mode : Type := INPUT_PULLUP | OUTPUT.

(** What [set] does to the hardware, in program order. *)
Inductive hw_event : Type :=
| Store (r : register) (v : Z)
| PinMode (pin : Z) (m : pin_mode).

(** Lines 229-281, built without FRQGENUSEPB6 and FRQGENDEBUG. *)
Definition program (val : Z) (sv : saved) : list hw_event :=
  Store TCCR4D 0 ::
  (if val =? 0 then
     [Store TCCR4A 0; Store TCCR4B 0; PinMode 5 INPUT_PULLUP]
   else
     let PS := wrap_unsigned (svCNT sv ÷ 2 - 1) in
     let cnt := wrap_unsigned (svCNT sv - 1) in
     [PinMode 5 OUTPUT;
      Store TCCR4A (Z.lor (Z.shiftl 1 PWM4A) (Z.shiftl 1 COM4A0));
      Store PLLFRQ
        (wrap_byte (Z.lor 0x4A (Z.shiftl (Z.land (Z.of_nat (svPLL sv)) 3) 4)));
      Store TCNT4H (wrap_byte (Z.shiftr cnt 8));
      Store OCR4C (Z.land cnt 0xFF);
      Store TCNT4H (wrap_byte (Z.shiftr PS 8));
      Store OCR4A (Z.land PS 0xFF);
      Store TCCR4B (Z.land (svLG sv + 1) 0xF)]).

(** The outcome of a call: the value returned, the object afterwards, and the
    hardware accesses made. *)
Record outcome : Type :=
  mkOutcome { returned : Z; after : FrequencyGenerator; io : list hw_event }.

(** [long FrequencyGenerator::read(void)] *)
Definition read (this : FrequencyGenerator) : Z := _FreqGenVal this.

(** [long FrequencyGenerator::set(long Freq)] *)
Definition set (this : FrequencyGenerator) (Freq : Z) : outcome :=
  if Freq <? 0 then mkOutcome (_FreqGenVal this) this []
  else if Freq =? 0 then
    mkOutcome 0 (mkGen 0) (program 0 saved_init)
  else
    let sv := search Freq in
    if svDIF sv <? 0x7FFFFFFF then
      let val := actual_of sv in
      mkOutcome val (mkGen val) (program val sv)
    else mkOutcome (-1) this [].

(** A sequence of calls made on the single instance, from its construction. *)
Inductive call : Type := CallSet (Freq : Z) | CallRead.

Definition perform (this : FrequencyGenerator) (c : call) : outcome :=
  match c with
  | CallSet Freq => set this Freq
  | CallRead => mkOutcome (read this) this []
  end.

Definition run (cs : list call) : FrequencyGenerator :=
  fold_left (fun this c => after (perform this c)) cs initial.

(** ** The generator helpers of the example application

    [examples/FreqGenCtrApp/FreqGenCtrApp.ino], built with FREEIF, FREQGEN and
    HASLCD as the file defines them. *)

(** [static const long PROGMEM Freqs[]]: the frequencies of the up and down
    buttons. *)
Definition Freqs : list Z :=
  [0; 10; 20; 50; 100; 200; 500; 1000; 2000; 5000; 10000; 20000;
   50000; 100000; 200000; 500000; 1000000; 2000000; 4000000].

(** [#define NUMFREQS (sizeof(Freqs)/sizeof(long))] *)
Definition NUMFREQS : nat := length Freqs.

(** [void SetFreqGenfromIndex(byte Idx)]: the object [FG] afterwards and the
    hardware accesses made. *)
Definition SetFreqGenfromIndex (FG : FrequencyGenerator) (Idx : nat)
  : FrequencyGenerator * list hw_event :=
  if (NUMFREQS <=? Idx)%nat then (FG, [])
  else
    let r := set FG (nth Idx Freqs 0) in
    (after r, io r).

(** What the application sends to the LCD. *)
Inductive lcd_event : Type :=
| LcdSetCursor (col row : Z)
| LcdPrint (s : String.string).

(** One decimal digit as a character. *)
Definition digit_char (d : Z) : Ascii.ascii :=
  Ascii.ascii_of_nat (48 + Z.to_nat d).

(** The digits of a non-negative number, most significant first, as the
    [%ld] conversion of [sprintf] writes them. *)
Equations? digits (n : Z) : String.string by wf (Z.to_nat n) lt :=
  digits n with Z_lt_dec n 10 => {
    | left _ := String.String (digit_char n) String.EmptyString;
    | right _ :=
        String.append (digits (n / 10))
                      (String.String (digit_char (n mod 10)) String.EmptyString) }.
Proof.
  apply Z2Nat.inj_lt; try lia.
  - apply Z.div_pos; lia.
  - apply Z.div_lt; lia.
Qed.

(** [%ld]: a minus sign before the digits of a negative number. *)
Definition decimal (v : Z) : String.string :=
  if v <? 0 then String.String "-"%char (digits (- v)) else digits v.

(** [void ShowGenFreq(void)]:
    [Lcd.setCursor(0,1);  Lcd.print("Gen=");
     sprintf_P(St,PSTR("%ld  Hz "),FG.set(-1));
     for (i=12-strlen(St); i>0; i--) Lcd.print(" ");
     Lcd.print(St);]
    [strlen] returns an [unsigned], so the subtraction is done at that type
    and then stored in the byte [i]; the loop prints one blank per count.
    The result is the object afterwards, the hardware accesses of the call to
    [set], and what goes to the LCD. *)
Definition ShowGenFreq (FG : FrequencyGenerator)
  : FrequencyGenerator * list hw_event * list lcd_event :=
  let r := set FG (-1) in
  let St := String.append (decimal (returned r)) "  Hz "%string in
  let i := wrap_byte (wrap_unsigned (12 - Z.of_nat (String.length St))) in
  (after r, io r,
   [LcdSetCursor 0 1; LcdPrint "Gen="%string]
   ++ repeat (LcdPrint " "%string) (Z.to_nat i)
   ++ [LcdPrint St]).

(** ** Machine arithmetic inside its range *)

Lemma wrap_byte_small z : 0 <= z < 2 ^ 8 -> wrap_byte z = z.
Proof. intros H. unfold wrap_byte. apply Z.mod_small. exact H. Qed.

Lemma wrap_unsigned_small z : 0 <= z < 2 ^ 16 -> wrap_unsigned z = z.
Proof. intros H. unfold wrap_unsigned. apply Z.mod_small. exact H. Qed.

Lemma wrap_int_small z : - 2 ^ 15 <= z < 2 ^ 15 -> wrap_int z = z.
Proof.
  intros H. unfold wrap_int.
  rewrite Z.mod_small; lia.
Qed.

Lemma wrap_long_small z : - 2 ^ 31 <= z < 2 ^ 31 -> wrap_long z = z.
Proof.
  intros H. unfold wrap_long.
  rewrite Z.mod_small; lia.
Qed.

(** ** The logarithm loop *)

Lemma log2_halve CV : 1 < CV -> Z.log2 CV = Z.log2 (Z.shiftr CV 1) + 1.
Proof.
  intros H. rewrite Z.log2_shiftr by lia.
  assert (1 <= Z.log2 CV) by (apply Z.log2_le_pow2; simpl; lia).
  lia.
Qed.

(** The loop counts the halvings: it adds [Z.log2 CV] to [lg], as long as the
    byte does not wrap. *)
Lemma log2_loop_log2 CV lg :
  0 <= lg -> lg + Z.log2 CV < 2 ^ 8 -> log2_loop CV lg = lg + Z.log2 CV.
Proof.
  funelim (log2_loop CV lg); intros Hlg Hb.
  - rewrite (log2_halve CV) in Hb |- * by lia.
    pose proof (Z.log2_nonneg (Z.shiftr CV 1)).
    rewrite H; rewrite wrap_byte_small; lia.
  - destruct (Z.eq_dec CV 1) as [-> | Hne]; [change (Z.log2 1) with 0; lia |].
    rewrite Z.log2_nonpos by lia. lia.
Qed.

Lemma log2_of_spec CV :
  0 <= CV < 2 ^ 32 ->
  log2_of CV = (if CV =? 0 then 0 else Z.log2 CV + 1)
  /\ log2_of CV = Z.log2_up (CV + 1).
Proof.
  intros HCV. unfold log2_of.
  destruct (Z.eqb_spec CV 0) as [-> | Hne]; [split; reflexivity |].
  assert (Z.log2 CV < 32) by (apply Z.log2_lt_pow2; lia).
  pose proof (Z.log2_nonneg CV).
  rewrite log2_loop_log2 by lia. simpl.
  rewrite wrap_byte_small by lia.
  split; [reflexivity |].
  rewrite Z.log2_up_eqn by lia.
  replace (Z.pred (CV + 1)) with CV by lia. lia.
Qed.

Lemma log2_of_above CV :
  0 <= CV < 2 ^ 32 -> 0 <= log2_of CV /\ CV < 2 ^ log2_of CV.
Proof.
  intros HCV. destruct (log2_of_spec CV HCV) as [_ E]. rewrite E.
  split; [apply Z.log2_up_nonneg |].
  destruct (Z.eq_dec CV 0) as [-> | Hne]; [reflexivity |].
  pose proof (Z.log2_up_spec (CV + 1)). lia.
Qed.

(** ** Truncating division on the values the search meets *)

Section Arithmetic.

Variables CK f P : Z.
Hypothesis Hf : 0 < f.
Hypothesis HP : 0 < P.
Hypothesis HCK : 0 <= CK.

Lemma quot_quot a b c :
  0 <= a -> 0 < b -> 0 < c -> a ÷ b ÷ c = a / (b * c).
Proof.
  intros Ha Hb Hc.
  rewrite (Z.quot_div_nonneg a b) by lia.
  rewrite Z.quot_div_nonneg; [| apply Z.div_pos; lia | lia].
  apply Z.div_div; lia.
Qed.

(** A prescaler above the divisor estimate keeps the rounded count within
    1024. *)
Lemma count_upper :
  CK ÷ f ÷ 1024 < P -> 0 <= (CK * 2 ÷ P ÷ f + 1) ÷ 2 <= 1024.
Proof.
  intros H.
  rewrite quot_quot in H |- * by lia.
  assert (CK < f * 1024 * P).
  { pose proof (Z.mul_succ_div_gt CK (f * 1024) ltac:(lia)). nia. }
  assert (0 <= CK * 2 / (P * f)) by (apply Z.div_pos; lia).
  assert (CK * 2 / (P * f) < 2048) by (apply Z.div_lt_upper_bound; nia).
  rewrite Z.quot_div_nonneg by lia.
  split; [apply Z.div_pos; lia |].
  apply Z.div_le_upper_bound; lia.
Qed.

(** With a count of at least 4 the product [PS*cnt*Freq] stays within 8/7 of
    the clock. *)
Lemma product_bound :
  4 <= (CK * 2 ÷ P ÷ f + 1) ÷ 2 ->
  0 <= P * ((CK * 2 ÷ P ÷ f + 1) ÷ 2) * f
  /\ 7 * (P * ((CK * 2 ÷ P ÷ f + 1) ÷ 2) * f) <= 8 * CK.
Proof.
  rewrite quot_quot by lia.
  assert (Hq : 0 <= CK * 2 / (P * f)) by (apply Z.div_pos; lia).
  rewrite Z.quot_div_nonneg by lia.
  set (q := CK * 2 / (P * f)) in *.
  intros H4.
  assert (Hq7 : 7 <= q).
  { destruct (Z_lt_le_dec q 7) as [Hlt | ]; [exfalso | assumption].
    assert ((q + 1) / 2 < 4) by (apply Z.div_lt_upper_bound; lia). lia. }
  assert (Hm : (P * f) * q <= CK * 2) by (apply Z.mul_div_le; lia).
  assert (Hc : 2 * ((q + 1) / 2) <= q + 1) by (apply Z.mul_div_le; lia).
  set (c := (q + 1) / 2) in *.
  split; [nia |].
  assert (P * f * (2 * c) <= P * f * (q + 1))
    by (apply Z.mul_le_mono_nonneg_l; lia).
  assert (7 * (P * f) <= P * f * q) by nia.
  nia.
Qed.

End Arithmetic.

(** Dividing and then taking the absolute value, as the code does, is the
    absolute value divided. *)
Lemma abs_quot a m : 0 < m -> Z.abs (a ÷ m) = Z.abs a ÷ m.
Proof.
  intros Hm. destruct (Z_lt_le_dec a 0) as [Hneg | Hpos].
  - rewrite (Z.abs_neq a) by lia.
    rewrite Z.quot_opp_l by lia.
    apply Z.abs_neq.
    assert (0 <= - a ÷ m) by (apply Z.quot_pos; lia).
    rewrite Z.quot_opp_l in H by lia. lia.
  - rewrite (Z.abs_eq a) by lia.
    apply Z.abs_eq. apply Z.quot_pos; lia.
Qed.

(** ** The stages of one loop iteration, without wrap-around *)

Lemma clock_exact pll :
  (pll < length CKM)%nat ->
  clock pll = F_CPU * CKM_at pll
  /\ 1 <= CKM_at pll <= 6
  /\ (pll <> 1%nat -> CKM_at pll <= 4).
Proof.
  intros Hp.
  do 4 (destruct pll as [| pll]; [vm_compute; intuition congruence |]).
  simpl in Hp. lia.
Qed.

Lemma estimate_exact f pll :
  0 < f -> (pll < length CKM)%nat ->
  estimate f pll = F_CPU * CKM_at pll ÷ f ÷ 1024
  /\ 0 <= estimate f pll < 2 ^ 32.
Proof.
  intros Hf Hp. destruct (clock_exact pll Hp) as (HCK & Hm & _).
  unfold estimate, Long.div. rewrite HCK. unfold F_CPU.
  set (CK := 16000000 * CKM_at pll).
  assert (0 <= CK ÷ f) by (apply Z.quot_pos; lia).
  assert (CK ÷ f <= CK).
  { rewrite Z.quot_div_nonneg by lia.
    apply Z.div_le_upper_bound; nia. }
  rewrite (wrap_long_small (CK ÷ f)) by lia.
  assert (0 <= CK ÷ f ÷ 1024) by (apply Z.quot_pos; lia).
  assert (CK ÷ f ÷ 1024 <= CK ÷ f).
  { rewrite (Z.quot_div_nonneg (CK ÷ f)) by lia.
    apply Z.div_le_upper_bound; lia. }
  rewrite wrap_long_small by lia.
  split; [reflexivity | lia].
Qed.

Lemma prescaler_exact lg :
  0 <= lg <= 14 ->
  prescaler lg = 2 ^ lg
  /\ wrap_int (Z.shiftl 1 lg) = 2 ^ lg
  /\ 1 <= 2 ^ lg <= 16384.
Proof.
  intros Hlg. unfold prescaler.
  rewrite Z.shiftl_1_l.
  assert (1 <= 2 ^ lg <= 16384).
  { split.
    - apply (Z.pow_le_mono_r 2 0 lg); lia.
    - apply (Z.pow_le_mono_r 2 lg 14); lia. }
  rewrite wrap_int_small by lia.
  rewrite wrap_unsigned_small by lia.
  intuition.
Qed.

Lemma shift_of_range f pll :
  0 < f -> (pll < length CKM)%nat ->
  0 <= shift_of f pll
  /\ F_CPU * CKM_at pll ÷ f ÷ 1024 < 2 ^ shift_of f pll.
Proof.
  intros Hf Hp. destruct (estimate_exact f pll Hf Hp) as [E R].
  unfold shift_of. rewrite <- E. apply log2_of_above. exact R.
Qed.

Lemma count_exact f pll :
  0 < f -> (pll < length CKM)%nat -> shift_of f pll <= 14 ->
  let cnt := (F_CPU * CKM_at pll * 2 ÷ 2 ^ shift_of f pll ÷ f + 1) ÷ 2 in
  count_of f pll (shift_of f pll) = cnt /\ 0 <= cnt <= 1024.
Proof.
  intros Hf Hp H14 cnt.
  destruct (clock_exact pll Hp) as (HCK & Hm & _).
  destruct (shift_of_range f pll Hf Hp) as [H0 Hlt].
  destruct (prescaler_exact (shift_of f pll)) as (HPS & _ & HP); [lia |].
  assert (HF : 0 <= F_CPU * CKM_at pll <= 96000000) by (unfold F_CPU; lia).
  pose proof (count_upper (F_CPU * CKM_at pll) f (2 ^ shift_of f pll)
                ltac:(lia) ltac:(lia) ltac:(lia) Hlt) as Hc.
  fold cnt in Hc. split; [| exact Hc].
  unfold count_of, Long.div, Long.add, Long.mul.
  rewrite HCK, HPS.
  set (CK := F_CPU * CKM_at pll) in *.
  rewrite (wrap_long_small (CK * 2)) by lia.
  assert (0 <= CK * 2 ÷ 2 ^ shift_of f pll) by (apply Z.quot_pos; lia).
  assert (CK * 2 ÷ 2 ^ shift_of f pll <= CK * 2).
  { rewrite Z.quot_div_nonneg by lia. apply Z.div_le_upper_bound; nia. }
  rewrite (wrap_long_small (CK * 2 ÷ 2 ^ shift_of f pll)) by lia.
  set (a := CK * 2 ÷ 2 ^ shift_of f pll) in *.
  assert (0 <= a ÷ f) by (apply Z.quot_pos; lia).
  assert (a ÷ f <= a).
  { rewrite Z.quot_div_nonneg by lia. apply Z.div_le_upper_bound; nia. }
  rewrite (wrap_long_small (a ÷ f)) by lia.
  rewrite (wrap_long_small (a ÷ f + 1)) by lia.
  fold cnt.
  rewrite wrap_long_small by lia.
  apply wrap_unsigned_small. lia.
Qed.

Lemma error_exact f pll :
  0 < f -> (pll < length CKM)%nat -> shift_of f pll <= 14 ->
  4 <= count_of f pll (shift_of f pll) ->
  let lg := shift_of f pll in
  let cnt := count_of f pll lg in
  let raw := F_CPU * CKM_at pll - 2 ^ lg * cnt * f in
  error_of f pll lg cnt = Z.abs (raw ÷ CKM_at pll)
  /\ error_of f pll lg cnt = Z.abs raw ÷ CKM_at pll
  /\ 0 <= error_of f pll lg cnt <= 96000000.
Proof.
  intros Hf Hp H14 H4 lg cnt raw.
  destruct (clock_exact pll Hp) as (HCK & Hm & _).
  destruct (shift_of_range f pll Hf Hp) as [H0 _].
  destruct (prescaler_exact lg) as (HPS & _ & HP); [unfold lg; lia |].
  destruct (count_exact f pll Hf Hp H14) as [Ecnt Hcnt].
  assert (HF : 0 <= F_CPU * CKM_at pll <= 96000000) by (unfold F_CPU; lia).
  assert (Hprod : 0 <= 2 ^ lg * cnt * f /\ 7 * (2 ^ lg * cnt * f)
                                           <= 8 * (F_CPU * CKM_at pll)).
  { unfold cnt, lg. rewrite Ecnt. apply product_bound; lia. }
  assert (Hraw : - 96000000 <= raw <= 96000000) by (unfold raw; lia).
  assert (Hquot : Z.abs (raw ÷ CKM_at pll) <= Z.abs raw).
  { rewrite abs_quot by lia.
    rewrite Z.quot_div_nonneg by lia.
    apply Z.div_le_upper_bound; [lia |].
    pose proof (Z.abs_nonneg raw). nia. }
  assert (E : error_of f pll lg cnt = Z.abs (raw ÷ CKM_at pll)).
  { unfold error_of, Long.sub, Long.mul, Long.div, Long.neg.
    rewrite HCK, HPS. fold cnt in Ecnt, Hcnt.
    rewrite (wrap_long_small (2 ^ lg * cnt)) by nia.
    rewrite (wrap_long_small (2 ^ lg * cnt * f)) by lia.
    fold raw. rewrite (wrap_long_small raw) by lia.
    rewrite (wrap_long_small (raw ÷ CKM_at pll)) by lia.
    destruct (Z.ltb_spec (raw ÷ CKM_at pll) 0).
    - rewrite wrap_long_small by lia. lia.
    - lia. }
  split; [exact E |].
  split; [rewrite E; apply abs_quot; lia |].
  rewrite E. lia.
Qed.

(** Everything a candidate carries, in exact arithmetic. *)
Lemma evaluate_sound f pll c :
  0 < f -> (pll < length CKM)%nat -> evaluate f pll = Some c ->
  pll <> 1%nat
  /\ c_lg c = shift_of f pll /\ 0 <= c_lg c <= 14
  /\ c_cnt c = (F_CPU * CKM_at pll * 2 ÷ 2 ^ c_lg c ÷ f + 1) ÷ 2
  /\ 4 <= c_cnt c <= 1023
  /\ c_dif c
     = Z.abs (F_CPU * CKM_at pll - 2 ^ c_lg c * c_cnt c * f) ÷ CKM_at pll
  /\ 0 <= c_dif c < 0x7FFFFFFF.
Proof.
  intros Hf Hp. unfold evaluate, shift_stage, count_stage.
  destruct (Nat.eqb_spec pll 1) as [-> | Hne]; [discriminate |].
  destruct (Z.gtb_spec (shift_of f pll) 14) as [Hgt | H14]; [discriminate |].
  cbn [orb].
  destruct (Z.ltb_spec (count_of f pll (shift_of f pll)) 4) as [Hlt | H4];
    [discriminate |].
  destruct (Z.gtb_spec (count_of f pll (shift_of f pll)) 0x3FF) as [Hbig | H1023];
    [discriminate |].
  cbn [orb]. intros E. injection E as <-. cbn [c_lg c_cnt c_dif].
  destruct (shift_of_range f pll Hf Hp) as [H0 _].
  destruct (count_exact f pll Hf Hp H14) as [Ecnt _].
  destruct (error_exact f pll Hf Hp H14 H4) as (_ & Edif & Hdif).
  cbv zeta in Ecnt, Edif.
  repeat split; try assumption; try lia.
Qed.

(** The frequency computed on line 211 for a saved candidate. *)
Lemma actual_exact pll lg cnt dif :
  (pll < length CKM)%nat -> 0 <= lg <= 14 -> 4 <= cnt <= 1023 ->
  actual_of (mkSaved pll lg cnt dif)
  = (F_CPU * CKM_at pll * 2 ÷ (2 ^ lg * cnt) + 1) ÷ 2
  /\ 1 <= actual_of (mkSaved pll lg cnt dif) <= 96000000.
Proof.
  intros Hp Hlg Hcnt.
  destruct (clock_exact pll Hp) as (HCK & Hm & _).
  destruct (prescaler_exact lg Hlg) as (_ & HPS & HP).
  unfold actual_of, Long.div, Long.add. cbn [svPLL svLG svCNT].
  fold (clock pll). rewrite HCK, HPS. unfold Long.mul.
  assert (HF : 16000000 <= F_CPU * CKM_at pll <= 96000000)
    by (unfold F_CPU; lia).
  set (CK := F_CPU * CKM_at pll) in *.
  assert (HD : 4 <= 2 ^ lg * cnt <= 16384 * 1023) by nia.
  rewrite (wrap_long_small (CK * 2)) by lia.
  rewrite (wrap_long_small (2 ^ lg * cnt)) by lia.
  set (D := 2 ^ lg * cnt) in *.
  assert (Hq : 1 <= CK * 2 ÷ D <= CK).
  { rewrite Z.quot_div_nonneg by lia. split.
    - apply Z.div_le_lower_bound; lia.
    - apply Z.div_le_upper_bound; nia. }
  rewrite (wrap_long_small (CK * 2 ÷ D)) by lia.
  rewrite (wrap_long_small (CK * 2 ÷ D + 1)) by lia.
  assert (Hr : 1 <= (CK * 2 ÷ D + 1) ÷ 2 <= 96000000).
  { rewrite (Z.quot_div_nonneg (CK * 2 ÷ D + 1)) by lia. split.
    - apply Z.div_le_lower_bound; lia.
    - apply Z.div_le_upper_bound; lia. }
  rewrite wrap_long_small by lia.
  split; [reflexivity | exact Hr].
Qed.

(** ** The loop keeps the first minimum *)

Lemma try_pll_cases f sv pll :
  (try_pll f sv pll = sv
   /\ forall c, evaluate f pll = Some c -> svDIF sv <= c_dif c)
  \/ (exists c, evaluate f pll = Some c
                /\ c_dif c < svDIF sv
                /\ try_pll f sv pll = mkSaved pll (c_lg c) (c_cnt c) (c_dif c)).
Proof.
  unfold try_pll. destruct (evaluate f pll) as [c |].
  - destruct (Z.ltb_spec (c_dif c) (svDIF sv)) as [Hlt | Hge].
    + right. exists c. auto.
    + left. split; [reflexivity |]. intros c' E. injection E as <-. exact Hge.
  - left. split; [reflexivity | discriminate].
Qed.

(** Either nothing in the list improved on [sv], or the result is the candidate
    of some position [p] of the list, strictly better than everything before
    it and at least as good as everything after it. *)
Lemma fold_try_pll f l : forall sv,
  (fold_left (try_pll f) l sv = sv
   /\ forall p c, In p l -> evaluate f p = Some c -> svDIF sv <= c_dif c)
  \/ (exists l1 p l2 c,
         l = l1 ++ p :: l2
         /\ evaluate f p = Some c
         /\ fold_left (try_pll f) l sv
            = mkSaved p (c_lg c) (c_cnt c) (c_dif c)
         /\ c_dif c < svDIF sv
         /\ (forall q c', In q l1 -> evaluate f q = Some c' ->
                          c_dif c < c_dif c')
         /\ (forall q c', In q l2 -> evaluate f q = Some c' ->
                          c_dif c <= c_dif c')).
Proof.
  induction l as [| a l IH]; intros sv; cbn [fold_left].
  - left. split; [reflexivity |]. intros p c [].
  - destruct (try_pll_cases f sv a) as [[Esv Ha] | (ca & Eca & Hlt & Esv)];
      rewrite Esv;
      [destruct (IH sv) as [[E Hall] | (l1 & p & l2 & c & El & Ec & E & Hc & H1 & H2)]
      | destruct (IH (mkSaved a (c_lg ca) (c_cnt ca) (c_dif ca)))
        as [[E Hall] | (l1 & p & l2 & c & El & Ec & E & Hc & H1 & H2)]].
    + left. split; [exact E |].
      intros p c [<- | Hin] Ep; [apply Ha, Ep | apply (Hall p c Hin Ep)].
    + right. exists (a :: l1), p, l2, c.
      repeat apply conj; try assumption.
      * rewrite El. reflexivity.
      * intros q c' [<- | Hin] Eq; [| apply (H1 q c' Hin Eq)].
        specialize (Ha c' Eq). lia.
    + right. exists [], a, l, ca.
      repeat apply conj; try assumption.
      * reflexivity.
      * intros q c' [].
    + cbn [svDIF] in Hc. right. exists (a :: l1), p, l2, c.
      repeat apply conj; try assumption.
      * rewrite El. reflexivity.
      * lia.
      * intros q c' [<- | Hin] Eq; [| apply (H1 q c' Hin Eq)].
        rewrite Eq in Eca. injection Eca as ->. exact Hc.
Qed.

Lemma seq_split : forall l1 s n p l2,
  seq s n = l1 ++ p :: l2 ->
  (s <= p < s + n)%nat
  /\ (forall q, In q l1 -> (s <= q < p)%nat)
  /\ (forall q, In q l2 -> (p < q < s + n)%nat).
Proof.
  induction l1 as [| a l1 IH]; intros s n p l2 E.
  - destruct n as [| n]; [discriminate |].
    cbn in E. injection E as <- <-.
    split; [lia |]. split; [intros q [] |].
    intros q Hin. apply in_seq in Hin. lia.
  - destruct n as [| n]; [discriminate |].
    cbn in E. injection E as <- E.
    destruct (IH _ _ _ _ E) as (Hp & H1 & H2).
    split; [lia |]. split.
    + intros q [<- | Hin]; [lia |]. specialize (H1 q Hin). lia.
    + intros q Hin. specialize (H2 q Hin). lia.
Qed.

(** In the range of the loop, what lies below [p] was met before it and what
    lies above was met after it. *)
Lemma seq_sides n l1 p l2 q :
  seq 0 n = l1 ++ p :: l2 -> (q < n)%nat ->
  ((q < p)%nat -> In q l1) /\ ((p < q)%nat -> In q l2).
Proof.
  intros El Hq.
  destruct (seq_split _ _ _ _ _ El) as (_ & Hl1 & Hl2).
  assert (Hin : In q (l1 ++ p :: l2)) by (rewrite <- El; apply in_seq; lia).
  apply in_app_or in Hin.
  destruct Hin as [Hin | [-> | Hin]].
  - specialize (Hl1 q Hin). split; [auto | lia].
  - split; lia.
  - specialize (Hl2 q Hin). split; [lia | auto].
Qed.

(** The saved configuration after the loop. *)
Lemma search_spec f :
  (search f = saved_init
   /\ forall p c, (p < length CKM)%nat -> evaluate f p = Some c ->
                  0x7FFFFFFF <= c_dif c)
  \/ (exists p c,
         (p < length CKM)%nat
         /\ evaluate f p = Some c
         /\ search f = mkSaved p (c_lg c) (c_cnt c) (c_dif c)
         /\ c_dif c < 0x7FFFFFFF
         /\ forall q c', (q < length CKM)%nat -> evaluate f q = Some c' ->
                         c_dif c <= c_dif c'
                         /\ (c_dif c' = c_dif c -> (p <= q)%nat)).
Proof.
  unfold search.
  destruct (fold_try_pll f (seq 0 (length CKM)) saved_init)
    as [[E Hall] | (l1 & p & l2 & c & El & Ec & E & Hc & H1 & H2)].
  - left. split; [exact E |].
    intros p c Hp Ep. apply (Hall p c); [apply in_seq; lia | exact Ep].
  - right. exists p, c.
    destruct (seq_split _ _ _ _ _ El) as (Hp & _).
    repeat apply conj; try assumption; try lia.
    intros q c' Hq Eq.
    destruct (seq_sides _ _ _ _ q El Hq) as [Hbefore Hafter].
    destruct (Nat.lt_trichotomy q p) as [Hlt | [-> | Hgt]].
    + specialize (H1 q c' (Hbefore Hlt) Eq). lia.
    + rewrite Eq in Ec. injection Ec as ->. lia.
    + specialize (H2 q c' (Hafter Hgt) Eq). lia.
Qed.

(** ** [set] on a positive frequency *)

Lemma set_positive this f :
  0 < f ->
  set this f
  = if svDIF (search f) <? 0x7FFFFFFF
    then mkOutcome (actual_of (search f)) (mkGen (actual_of (search f)))
                   (program (actual_of (search f)) (search f))
    else mkOutcome (-1) this [].
Proof.
  intros Hf. unfold set.
  destruct (Z.ltb_spec f 0); [lia |].
  destruct (Z.eqb_spec f 0); [lia |].
  reflexivity.
Qed.

(** The excluded multiplier never gives a candidate, whatever the target. *)
Lemma evaluate_excluded f : evaluate f 1 = None.
Proof. reflexivity. Qed.

(** A candidate exists exactly when both range checks pass. *)
Lemma evaluate_some_iff f pll :
  (exists c, evaluate f pll = Some c)
  <-> pll <> 1%nat
      /\ shift_of f pll <= 14
      /\ 4 <= count_of f pll (shift_of f pll) <= 1023.
Proof.
  unfold evaluate, shift_stage, count_stage.
  destruct (Nat.eqb_spec pll 1) as [-> | Hne]; cbn [orb].
  - split; [intros [c E]; discriminate | intros (H & _); congruence].
  - destruct (Z.gtb_spec (shift_of f pll) 14) as [Hgt | H14].
    + split; [intros [c E]; discriminate | lia].
    + destruct (Z.ltb_spec (count_of f pll (shift_of f pll)) 4) as [Hlt | H4];
        cbn [orb].
      * split; [intros [c E]; discriminate | lia].
      * destruct (Z.gtb_spec (count_of f pll (shift_of f pll)) 0x3FF)
          as [Hbig | H1023].
        -- split; [intros [c E]; discriminate | lia].
        -- split; [intros _; lia | intros _; eexists; reflexivity].
Qed.

(** The loop ends below the initial [svDIF] exactly when some clock source
    gave a candidate, and then the saved configuration is the first candidate
    of least error. *)
Lemma search_found f :
  0 < f -> svDIF (search f) < 0x7FFFFFFF ->
  exists p c,
    (p < length CKM)%nat
    /\ evaluate f p = Some c
    /\ search f = mkSaved p (c_lg c) (c_cnt c) (c_dif c)
    /\ forall q c', (q < length CKM)%nat -> evaluate f q = Some c' ->
                    c_dif c <= c_dif c'
                    /\ (c_dif c' = c_dif c -> (p <= q)%nat).
Proof.
  intros Hf Hlt.
  destruct (search_spec f) as [[E _] | (p & c & Hp & Ec & E & _ & Hmin)].
  - rewrite E in Hlt. cbn in Hlt. lia.
  - exists p, c. auto.
Qed.

Lemma search_none f :
  0 < f ->
  (0x7FFFFFFF <= svDIF (search f)
   <-> forall p, (p < length CKM)%nat -> evaluate f p = None).
Proof.
  intros Hf. split.
  - intros Hge p Hp. destruct (evaluate f p) as [c |] eqn:Ec; [| reflexivity].
    exfalso.
    destruct (evaluate_sound f p c Hf Hp Ec) as (_ & _ & _ & _ & _ & _ & Hd).
    destruct (search_spec f) as [[_ Hall] | (p' & c' & Hp' & Ec' & E & Hc & Hmin)].
    + specialize (Hall p c Hp Ec). lia.
    + rewrite E in Hge. cbn in Hge. lia.
  - intros Hnone.
    destruct (search_spec f) as [[E _] | (p & c & Hp & Ec & _)].
    + rewrite E. cbn. lia.
    + rewrite (Hnone p Hp) in Ec. discriminate.
Qed.

(** On success the value stored and returned is at least 1. *)
Lemma actual_of_search f :
  0 < f -> svDIF (search f) < 0x7FFFFFFF ->
  actual_of (search f)
  = (F_CPU * CKM_at (svPLL (search f)) * 2
       ÷ (2 ^ svLG (search f) * svCNT (search f)) + 1) ÷ 2
  /\ 1 <= actual_of (search f) <= 96000000.
Proof.
  intros Hf Hlt.
  destruct (search_found f Hf Hlt) as (p & c & Hp & Ec & E & _).
  destruct (evaluate_sound f p c Hf Hp Ec) as (_ & _ & Hlg & _ & Hcnt & _).
  rewrite E. cbn [svPLL svLG svCNT].
  apply actual_exact; assumption.
Qed.

(** * The claims *)

(** C1: for a positive target on which [set] succeeds, the configuration kept
    by the search (and then programmed) is the candidate of the clock source
    [svPLL]; its error score is no larger than the score of any candidate of
    the search, and a candidate with the same score comes from a clock-source
    index that is not lower: the first minimum wins. *)
Theorem set_keeps_first_minimum this f :
  0 < f -> returned (set this f) <> -1 ->
  let sv := search f in
  exists c,
    (svPLL sv < length CKM)%nat
    /\ evaluate f (svPLL sv) = Some c
    /\ sv = mkSaved (svPLL sv) (c_lg c) (c_cnt c) (c_dif c)
    /\ io (set this f) = program (actual_of sv) sv
    /\ forall pll c',
         (pll < length CKM)%nat -> evaluate f pll = Some c' ->
         svDIF sv <= c_dif c'
         /\ (c_dif c' = svDIF sv -> (svPLL sv <= pll)%nat).
Proof.
  intros Hf Hok sv. rewrite (set_positive this f Hf) in Hok |- *.
  fold sv in Hok |- *.
  destruct (Z.ltb_spec (svDIF sv) 0x7FFFFFFF) as [Hlt | Hge];
    [| cbn in Hok; congruence].
  destruct (search_found f Hf Hlt) as (p & c & Hp & Ec & E & Hmin).
  fold sv in E. exists c. rewrite E. cbn [svPLL svDIF io].
  repeat apply conj; try assumption; try reflexivity.
Qed.

Lemma set_keeps_first_minimum_witness :
  0 < 4 /\ returned (set initial 4) <> -1
  /\ exists c,
       (svPLL (search 4) < length CKM)%nat
       /\ evaluate 4 (svPLL (search 4)) = Some c
       /\ search 4 = mkSaved (svPLL (search 4)) (c_lg c) (c_cnt c) (c_dif c)
       /\ io (set initial 4) = program (actual_of (search 4)) (search 4)
       /\ forall pll c',
            (pll < length CKM)%nat -> evaluate 4 pll = Some c' ->
            svDIF (search 4) <= c_dif c'
            /\ (c_dif c' = svDIF (search 4) -> (svPLL (search 4) <= pll)%nat).
Proof.
  split; [lia |]. split; [vm_compute; discriminate |].
  apply (set_keeps_first_minimum initial 4); [lia | vm_compute; discriminate].
Defined.

(** At 4 Hz the clock sources 0 and 2 tie at the least error and 0 is kept. *)
Example tie_at_4Hz :
  option_map c_dif (evaluate 4 0) = Some 7168
  /\ option_map c_dif (evaluate 4 2) = Some 7168
  /\ svPLL (search 4) = 0%nat.
Proof. vm_compute. auto. Qed.

(** C2: for a positive target, [set] returns -1 exactly when no clock source
    other than the excluded one has both a shift of at most 14 and a count in
    [4, 1023]; and when it returns -1 the object is unchanged, [read] gives
    what it gave before, and no register or pin was touched. *)
Theorem set_fails_iff_no_candidate this f :
  0 < f ->
  (returned (set this f) = -1
   <-> ~ exists pll,
         (pll < length CKM)%nat /\ pll <> 1%nat
         /\ shift_of f pll <= 14
         /\ 4 <= count_of f pll (shift_of f pll) <= 1023)
  /\ (returned (set this f) = -1 ->
      after (set this f) = this
      /\ read (after (set this f)) = read this
      /\ io (set this f) = []).
Proof.
  intros Hf. rewrite (set_positive this f Hf).
  destruct (Z.ltb_spec (svDIF (search f)) 0x7FFFFFFF) as [Hlt | Hge];
    cbn [returned after io].
  - destruct (actual_of_search f Hf Hlt) as [_ Hact].
    destruct (search_found f Hf Hlt) as (p & c & Hp & Ec & _).
    split; [split |]; try lia.
    intros Hno. exfalso. apply Hno. exists p.
    split; [exact Hp |]. apply evaluate_some_iff. exists c. exact Ec.
  - split; [split |]; auto.
    intros _ (p & Hp & Hne & Hs & Hc).
    apply (search_none f Hf) with (p := p) in Hge; [| exact Hp].
    assert (Hex : exists c, evaluate f p = Some c)
      by (apply evaluate_some_iff; auto).
    destruct Hex as [c Ec]. congruence.
Qed.

Lemma set_fails_iff_no_candidate_witness :
  0 < 50000000
  /\ (returned (set (mkGen 1000000) 50000000) = -1
      <-> ~ exists pll,
            (pll < length CKM)%nat /\ pll <> 1%nat
            /\ shift_of 50000000 pll <= 14
            /\ 4 <= count_of 50000000 pll (shift_of 50000000 pll) <= 1023)
  /\ (returned (set (mkGen 1000000) 50000000) = -1 ->
      after (set (mkGen 1000000) 50000000) = mkGen 1000000
      /\ read (after (set (mkGen 1000000) 50000000)) = read (mkGen 1000000)
      /\ io (set (mkGen 1000000) 50000000) = []).
Proof.
  split; [lia |].
  apply (set_fails_iff_no_candidate (mkGen 1000000) 50000000). lia.
Defined.

(** The infeasible target of the spec's scenario does return the sentinel. *)
Example set_50MHz_fails :
  returned (set (mkGen 1000000) 50000000) = -1
  /\ after (set (mkGen 1000000) 50000000) = mkGen 1000000.
Proof. vm_compute. auto. Qed.

(** C3: after a successful [set] on a positive target, the value returned is
    [((F_CPU * CKM[svPLL] * 2) / (2^svLG * svCNT) + 1) / 2] with truncating
    division, taken on the saved configuration, and [read] then returns that
    same value. *)
Theorem set_returns_rounded_actual this f :
  0 < f -> returned (set this f) <> -1 ->
  let sv := search f in
  returned (set this f)
  = (F_CPU * CKM_at (svPLL sv) * 2 ÷ (2 ^ svLG sv * svCNT sv) + 1) ÷ 2
  /\ read (after (set this f)) = returned (set this f).
Proof.
  intros Hf Hok sv. rewrite (set_positive this f Hf) in Hok |- *.
  fold sv in Hok |- *.
  destruct (Z.ltb_spec (svDIF sv) 0x7FFFFFFF) as [Hlt | Hge];
    [| cbn in Hok; congruence].
  cbn [returned after read _FreqGenVal].
  destruct (actual_of_search f Hf Hlt) as [E _].
  split; [exact E | reflexivity].
Qed.

Lemma set_returns_rounded_actual_witness :
  0 < 1050000 /\ returned (set initial 1050000) <> -1
  /\ returned (set initial 1050000)
     = (F_CPU * CKM_at (svPLL (search 1050000)) * 2
          ÷ (2 ^ svLG (search 1050000) * svCNT (search 1050000)) + 1) ÷ 2
  /\ read (after (set initial 1050000)) = returned (set initial 1050000).
Proof.
  split; [lia |]. split; [vm_compute; discriminate |].
  apply (set_returns_rounded_actual initial 1050000);
    [lia | vm_compute; discriminate].
Defined.

Example set_1050kHz :
  search 1050000 = mkSaved 2 0 61 12500
  /\ returned (set initial 1050000) = 1049180.
Proof. vm_compute. auto. Qed.

(** C4: for a clock source that is not excluded and has passed the shift
    check with shift [lg], on a positive target, the count is
    [((CK * 2 / PS / f) + 1) / 2] with truncating division and [PS = 2^lg];
    the clock source gives a candidate exactly when that count lies in
    [4, 1023].  In particular counts 4 and 1023 are accepted, counts 3 and
    1024 are rejected. *)
Theorem count_rounding_and_range f pll lg :
  0 < f -> (pll < length CKM)%nat -> shift_stage f pll = Some lg ->
  let cnt := (F_CPU * CKM_at pll * 2 ÷ 2 ^ lg ÷ f + 1) ÷ 2 in
  count_of f pll lg = cnt
  /\ ((exists c, evaluate f pll = Some c /\ c_lg c = lg /\ c_cnt c = cnt)
      <-> 4 <= cnt <= 1023)
  /\ (evaluate f pll = None <-> ~ 4 <= cnt <= 1023)
  /\ (cnt = 4 \/ cnt = 1023 -> evaluate f pll <> None)
  /\ (cnt = 3 \/ cnt = 1024 -> evaluate f pll = None).
Proof.
  intros Hf Hp Hs cnt.
  assert (Hlg : lg = shift_of f pll /\ shift_of f pll <= 14).
  { unfold shift_stage in Hs.
    destruct (Nat.eqb_spec pll 1); [discriminate |].
    destruct (Z.gtb_spec (shift_of f pll) 14); [discriminate |].
    cbn in Hs. injection Hs as <-. split; [reflexivity | assumption]. }
  destruct Hlg as [-> H14].
  destruct (count_exact f pll Hf Hp H14) as [Ecnt _]. fold cnt in Ecnt.
  assert (Hev : evaluate f pll = count_stage f pll (shift_of f pll))
    by (unfold evaluate; rewrite Hs; reflexivity).
  rewrite Hev. unfold count_stage. rewrite Ecnt.
  destruct (Z.ltb_spec cnt 4) as [Hlt | H4]; cbn [orb];
    [| destruct (Z.gtb_spec cnt 0x3FF) as [Hbig | H1023]];
    repeat apply conj;
    first [ solve [reflexivity]
          | solve [discriminate]
          | solve [intros (c & E & _); discriminate]
          | solve [intros; lia]
          | solve [intros _; eexists; repeat split] ].
Qed.

Lemma count_rounding_and_range_witness :
  0 < 4000000 /\ (0 < length CKM)%nat /\ shift_stage 4000000 0 = Some 0
  /\ count_of 4000000 0 0 = (F_CPU * CKM_at 0 * 2 ÷ 2 ^ 0 ÷ 4000000 + 1) ÷ 2
  /\ evaluate 4000000 0 <> None.
Proof.
  split; [lia |]. split; [simpl; lia |]. split; [reflexivity |].
  pose proof (count_rounding_and_range 4000000 0 0 ltac:(lia)
                ltac:(simpl; lia) ltac:(reflexivity)) as (Hc & _ & _ & Hacc & _).
  split; [exact Hc |]. apply Hacc. left. reflexivity.
Defined.

(** The four boundary counts are met on the 16 MHz source (shift 0). *)
Example count_boundaries :
  (count_of 4000000 0 0 = 4 /\ evaluate 4000000 0 <> None)
  /\ (count_of 5000000 0 0 = 3 /\ evaluate 5000000 0 = None)
  /\ (count_of 15640 0 0 = 1023 /\ evaluate 15640 0 <> None)
  /\ (count_of 15626 0 0 = 1024 /\ evaluate 15626 0 = None).
Proof. vm_compute. repeat split; discriminate. Qed.

(** C5: for a clock source that is not excluded, on a positive target, with
    [CV = CK / f / 1024] (truncating): the shift is 0 when [CV = 0] and
    otherwise one more than the number of halvings of the loop, which is
    [ceil(log2(CV + 1))]; the shift check rejects the clock source exactly
    when the shift is above 14. *)
Theorem shift_is_ceil_log2 f pll :
  0 < f -> (pll < length CKM)%nat -> pll <> 1%nat ->
  let CV := F_CPU * CKM_at pll ÷ f ÷ 1024 in
  estimate f pll = CV
  /\ shift_of f pll = (if CV =? 0 then 0 else log2_loop CV 0 + 1)
  /\ log2_loop CV 0 = Z.log2 CV
  /\ shift_of f pll = Z.log2_up (CV + 1)
  /\ (shift_stage f pll = None <-> 14 < shift_of f pll).
Proof.
  intros Hf Hp Hne CV.
  destruct (estimate_exact f pll Hf Hp) as [E R]. fold CV in E.
  rewrite E in R.
  destruct (log2_of_spec CV R) as [E1 E2].
  assert (Hlog : Z.log2 CV < 32).
  { destruct (Z_le_gt_dec CV 0) as [Hz | Hpos].
    - rewrite Z.log2_nonpos; lia.
    - apply Z.log2_lt_pow2; lia. }
  pose proof (Z.log2_nonneg CV) as Hnn.
  assert (Hloop : log2_loop CV 0 = Z.log2 CV)
    by (rewrite log2_loop_log2; lia).
  unfold shift_stage, shift_of. rewrite E.
  repeat apply conj.
  - reflexivity.
  - rewrite E1, Hloop. reflexivity.
  - exact Hloop.
  - exact E2.
  - destruct (Nat.eqb_spec pll 1); [contradiction |]. cbn [orb].
    destruct (Z.gtb_spec (log2_of CV) 14); [intros _; lia | discriminate].
  - destruct (Nat.eqb_spec pll 1); [contradiction |]. cbn [orb].
    destruct (Z.gtb_spec (log2_of CV) 14); [reflexivity | lia].
Qed.

Lemma shift_is_ceil_log2_witness :
  0 < 1 /\ (2 < length CKM)%nat /\ 2%nat <> 1%nat
  /\ estimate 1 2 = F_CPU * CKM_at 2 ÷ 1 ÷ 1024
  /\ shift_of 1 2
     = (if F_CPU * CKM_at 2 ÷ 1 ÷ 1024 =? 0 then 0
        else log2_loop (F_CPU * CKM_at 2 ÷ 1 ÷ 1024) 0 + 1)
  /\ log2_loop (F_CPU * CKM_at 2 ÷ 1 ÷ 1024) 0
     = Z.log2 (F_CPU * CKM_at 2 ÷ 1 ÷ 1024)
  /\ shift_of 1 2 = Z.log2_up (F_CPU * CKM_at 2 ÷ 1 ÷ 1024 + 1)
  /\ (shift_stage 1 2 = None <-> 14 < shift_of 1 2).
Proof.
  split; [lia |]. split; [simpl; lia |]. split; [discriminate |].
  apply (shift_is_ceil_log2 1 2); [lia | simpl; lia | discriminate].
Defined.

(** At 1 Hz the 64 MHz source needs a shift of 16 and is rejected; the 16 MHz
    source needs 14 and is kept. *)
Example shift_at_1Hz :
  shift_of 1 2 = 16 /\ shift_stage 1 2 = None
  /\ shift_of 1 0 = 14 /\ shift_stage 1 0 = Some 14.
Proof. vm_compute. auto. Qed.

(** C6: for every candidate on a positive target, the error score offered to
    the comparison is [|CK - PS * cnt * f| / m]: the difference is taken first,
    without wrap-around at the width of [long], and only then divided by the
    multiplier (truncating); the code's order, divide and then take the
    absolute value, gives the same number. *)
Theorem error_score_formula f pll c :
  0 < f -> (pll < length CKM)%nat -> evaluate f pll = Some c ->
  let raw := F_CPU * CKM_at pll - 2 ^ c_lg c * c_cnt c * f in
  c_dif c = Z.abs raw ÷ CKM_at pll
  /\ c_dif c = Z.abs raw / CKM_at pll
  /\ c_dif c = Z.abs (raw ÷ CKM_at pll)
  /\ - 2 ^ 31 <= raw < 2 ^ 31
  /\ forall sv,
       try_pll f sv pll
       = if Z.abs raw ÷ CKM_at pll <? svDIF sv
         then mkSaved pll (c_lg c) (c_cnt c) (Z.abs raw ÷ CKM_at pll)
         else sv.
Proof.
  intros Hf Hp Ec raw.
  destruct (evaluate_sound f pll c Hf Hp Ec)
    as (Hne & Elg & Hlg & Ecnt & Hcnt & Edif & Hdif).
  destruct (clock_exact pll Hp) as (_ & Hm & _).
  fold raw in Edif.
  assert (Hraw : - 2 ^ 31 <= raw < 2 ^ 31).
  { assert (HF : 0 <= F_CPU * CKM_at pll <= 96000000) by (unfold F_CPU; lia).
    destruct (prescaler_exact (c_lg c) Hlg) as (_ & _ & HP).
    pose proof (product_bound (F_CPU * CKM_at pll) f (2 ^ c_lg c)
                  ltac:(lia) ltac:(lia) ltac:(lia)) as Hprod.
    rewrite <- Ecnt in Hprod. specialize (Hprod ltac:(lia)).
    unfold raw. lia. }
  repeat apply conj.
  - exact Edif.
  - rewrite Edif. apply Z.quot_div_nonneg; lia.
  - rewrite Edif. symmetry. apply abs_quot. lia.
  - lia.
  - lia.
  - intros sv. unfold try_pll. rewrite Ec, <- Edif. reflexivity.
Qed.

Lemma error_score_formula_witness :
  0 < 1050000 /\ (2 < length CKM)%nat
  /\ evaluate 1050000 2 = Some (mkCandidate 0 61 12500)
  /\ 12500 = Z.abs (F_CPU * CKM_at 2 - 2 ^ 0 * 61 * 1050000) ÷ CKM_at 2.
Proof.
  split; [lia |]. split; [simpl; lia |]. split; [reflexivity |].
  apply (error_score_formula 1050000 2 (mkCandidate 0 61 12500));
    [lia | simpl; lia | reflexivity].
Defined.

(** C7: whatever the target, the excluded index 1 (the 96 MHz multiplier) is
    not the clock index left by the search, and every value that [set] writes
    to PLLFRQ selects, in its bits 5:4, the index left by the search and not
    index 1. *)
Theorem excluded_pll_never_chosen this f :
  svPLL (search f) <> 1%nat
  /\ forall v, In (Store PLLFRQ v) (io (set this f)) ->
               Z.land (Z.shiftr v 4) 3 = Z.of_nat (svPLL (search f))
               /\ Z.land (Z.shiftr v 4) 3 <> 1.
Proof.
  assert (Hpll : svPLL (search f) = 0%nat \/ svPLL (search f) = 2%nat
                 \/ svPLL (search f) = 3%nat).
  { destruct (search_spec f) as [[E _] | (p & c & Hp & Ec & E & _)];
      rewrite E; cbn [svPLL saved_init]; [auto |].
    destruct p as [| [| [| [| p]]]]; auto.
    - rewrite evaluate_excluded in Ec. discriminate.
    - simpl in Hp. lia. }
  split; [lia |].
  intros v Hin. unfold set in Hin.
  destruct (f <? 0); [destruct Hin |].
  destruct (f =? 0).
  - cbn in Hin. repeat (destruct Hin as [Hin | Hin]; [discriminate |]).
    destruct Hin.
  - destruct (svDIF (search f) <? 0x7FFFFFFF); [| destruct Hin].
    cbn [io] in Hin. unfold program in Hin.
    destruct (actual_of (search f) =? 0).
    + cbn in Hin. repeat (destruct Hin as [Hin | Hin]; [discriminate |]).
      destruct Hin.
    + cbn [In] in Hin.
      destruct Hin as [Hin | [Hin | [Hin | [Hin | Hin]]]]; try discriminate.
      * destruct Hpll as [E | [E | E]]; rewrite E in Hin |- *;
          injection Hin as <-; vm_compute; split; congruence.
      * repeat (destruct Hin as [Hin | Hin]; [discriminate |]).
        destruct Hin.
Qed.

(** C8: [set(0)] always succeeds: whatever the object held, it returns 0,
    stores 0, and [read] afterwards returns 0; the timer is stopped and the
    pin released. *)
Theorem set_zero_disables this :
  returned (set this 0) = 0
  /\ _FreqGenVal (after (set this 0)) = 0
  /\ read (after (set this 0)) = 0
  /\ io (set this 0)
     = [Store TCCR4D 0; Store TCCR4A 0; Store TCCR4B 0; PinMode 5 INPUT_PULLUP].
Proof. repeat split. Qed.

(** C9: on a negative argument [set] returns the stored frequency, leaves the
    object as it was, touches no register, and [read] afterwards gives what it
    gave before. *)
Theorem set_negative_is_query this f :
  f < 0 ->
  returned (set this f) = read this
  /\ after (set this f) = this
  /\ io (set this f) = []
  /\ read (after (set this f)) = read this.
Proof.
  intros Hf. unfold set.
  destruct (Z.ltb_spec f 0); [| lia].
  repeat split.
Qed.

Lemma set_negative_is_query_witness :
  -1 < 0
  /\ returned (set (mkGen 1000000) (-1)) = read (mkGen 1000000)
  /\ after (set (mkGen 1000000) (-1)) = mkGen 1000000
  /\ io (set (mkGen 1000000) (-1)) = []
  /\ read (after (set (mkGen 1000000) (-1))) = read (mkGen 1000000).
Proof.
  split; [lia |].
  apply (set_negative_is_query (mkGen 1000000) (-1)). lia.
Defined.

(** Every call keeps a non-negative stored frequency non-negative. *)
Lemma perform_nonneg this c :
  0 <= _FreqGenVal this -> 0 <= _FreqGenVal (after (perform this c)).
Proof.
  intros H. destruct c as [f |]; [| exact H].
  cbn [perform]. unfold set.
  destruct (Z.ltb_spec f 0); [exact H |].
  destruct (Z.eqb_spec f 0); [cbn; lia |].
  destruct (Z.ltb_spec (svDIF (search f)) 0x7FFFFFFF) as [Hlt | Hge];
    [| exact H].
  cbn [after _FreqGenVal].
  destruct (actual_of_search f ltac:(lia) Hlt) as [_ Hact]. lia.
Qed.

(** C10: from the initial object (stored frequency 0), after any sequence of
    [set] calls, with any arguments, and [read] calls, the stored frequency is
    non-negative; so [read] never returns -1, and [read] itself changes
    nothing. *)
Theorem stored_frequency_nonneg cs :
  0 <= _FreqGenVal (run cs)
  /\ read (run cs) <> -1
  /\ after (perform (run cs) CallRead) = run cs.
Proof.
  assert (H : forall this, 0 <= _FreqGenVal this ->
                0 <= _FreqGenVal
                       (fold_left (fun g c => after (perform g c)) cs this)).
  { induction cs as [| c cs IH]; intros this H0; cbn [fold_left].
    - exact H0.
    - apply IH. apply perform_nonneg. exact H0. }
  specialize (H initial ltac:(cbn; lia)). fold (run cs) in H.
  unfold read. repeat split; lia.
Qed.

(** * Further properties of the search *)

(** ** Rounding of the count and accuracy of the result *)

(** [((n*2/D)+1)/2] is the integer nearest to [n/D], halves rounded up. *)
Lemma half_up_bracket n D :
  0 <= n -> 0 < D ->
  let c := (n * 2 ÷ D + 1) ÷ 2 in
  (2 * c - 1) * D <= 2 * n < (2 * c + 1) * D.
Proof.
  intros Hn HD c.
  assert (Hq : 0 <= n * 2 ÷ D) by (apply Z.quot_pos; lia).
  unfold c. rewrite (Z.quot_div_nonneg (n * 2 ÷ D + 1)) by lia.
  rewrite (Z.quot_div_nonneg (n * 2)) in * by lia.
  set (q := n * 2 / D) in *.
  pose proof (Z.mul_div_le (n * 2) D HD) as Hlo.
  pose proof (Z.mul_succ_div_gt (n * 2) D HD) as Hhi.
  fold q in Hlo, Hhi.
  pose proof (Z.mul_div_le (q + 1) 2 ltac:(lia)) as Hc1.
  pose proof (Z.mul_succ_div_gt (q + 1) 2 ltac:(lia)) as Hc2.
  set (k := (q + 1) / 2) in *.
  split; nia.
Qed.

Lemma count_bracket f pll c :
  0 < f -> (pll < length CKM)%nat -> evaluate f pll = Some c ->
  (2 * c_cnt c - 1) * (2 ^ c_lg c * f) <= 2 * (F_CPU * CKM_at pll)
                                       < (2 * c_cnt c + 1) * (2 ^ c_lg c * f).
Proof.
  intros Hf Hp Ec.
  destruct (evaluate_sound f pll c Hf Hp Ec)
    as (_ & _ & Hlg & Ecnt & _).
  destruct (clock_exact pll Hp) as (_ & Hm & _).
  destruct (prescaler_exact (c_lg c) Hlg) as (_ & _ & HP).
  assert (HF : 0 <= F_CPU * CKM_at pll) by (unfold F_CPU; lia).
  pose proof (half_up_bracket (F_CPU * CKM_at pll) (2 ^ c_lg c * f)
                HF ltac:(nia)) as Hb.
  cbv zeta in Hb.
  rewrite Ecnt.
  rewrite quot_quot by lia.
  rewrite (Z.quot_div_nonneg (F_CPU * CKM_at pll * 2)) in Hb by nia.
  exact Hb.
Qed.

(** X1: the count of every candidate is the nearest integer to
    [CK / (PS * f)]: the period [PS * cnt] clock ticks misses the requested
    period [CK / f] by at most half a prescaled tick,
    [2 * |CK - PS*cnt*f| <= PS * f]. *)
Theorem count_is_nearest f pll c :
  0 < f -> (pll < length CKM)%nat -> evaluate f pll = Some c ->
  2 * Z.abs (F_CPU * CKM_at pll - 2 ^ c_lg c * c_cnt c * f)
  <= 2 ^ c_lg c * f.
Proof.
  intros Hf Hp Ec.
  pose proof (count_bracket f pll c Hf Hp Ec) as Hb.
  lia.
Qed.

Lemma count_is_nearest_witness :
  0 < 1050000 /\ (2 < length CKM)%nat
  /\ evaluate 1050000 2 = Some (mkCandidate 0 61 12500)
  /\ 2 * Z.abs (F_CPU * CKM_at 2 - 2 ^ 0 * 61 * 1050000) <= 2 ^ 0 * 1050000.
Proof.
  split; [lia |]. split; [simpl; lia |]. split; [reflexivity |].
  apply (count_is_nearest 1050000 2 (mkCandidate 0 61 12500));
    [lia | simpl; lia | reflexivity].
Defined.

(** The shift is the least one that fits the count. *)
Lemma prescaled_count f pll c :
  0 < f -> (pll < length CKM)%nat -> evaluate f pll = Some c ->
  0 < c_lg c -> 512 <= c_cnt c.
Proof.
  intros Hf Hp Ec Hpos.
  destruct (evaluate_sound f pll c Hf Hp Ec)
    as (_ & Elg & Hlg & Ecnt & _).
  destruct (clock_exact pll Hp) as (_ & Hm & _).
  destruct (prescaler_exact (c_lg c) Hlg) as (_ & _ & HP).
  destruct (estimate_exact f pll Hf Hp) as [E R].
  assert (HF : 0 <= F_CPU * CKM_at pll) by (unfold F_CPU; lia).
  set (CK := F_CPU * CKM_at pll) in *.
  (* the estimate is at least half the prescaler *)
  assert (Hhalf : 2 ^ (c_lg c - 1) <= CK ÷ f ÷ 1024).
  { unfold shift_of in Elg. rewrite E in Elg, R.
    destruct (log2_of_spec _ R) as [_ Eup]. rewrite Eup in Elg.
    assert (H1 : 1 < CK ÷ f ÷ 1024 + 1).
    { destruct (Z.eq_dec (CK ÷ f ÷ 1024) 0) as [E0 | Hne]; [| lia].
      rewrite E0 in Elg. change (Z.log2_up (0 + 1)) with 0 in Elg. lia. }
    pose proof (Z.log2_up_spec _ H1) as [Hlow _].
    rewrite <- Elg in Hlow.
    replace (Z.pred (c_lg c)) with (c_lg c - 1) in Hlow by lia. lia. }
  assert (Hpow : 2 ^ c_lg c = 2 * 2 ^ (c_lg c - 1)).
  { replace (c_lg c) with (Z.succ (c_lg c - 1)) at 1 by lia.
    apply Z.pow_succ_r. lia. }
  rewrite quot_quot in Hhalf by lia.
  assert (Hck : 2 ^ (c_lg c - 1) * (f * 1024) <= CK).
  { pose proof (Z.mul_div_le CK (f * 1024) ltac:(lia)).
    assert (0 < f * 1024) by lia. nia. }
  rewrite Ecnt. rewrite quot_quot by lia.
  assert (Hq : 1024 <= CK * 2 / (2 ^ c_lg c * f))
    by (apply Z.div_le_lower_bound; nia).
  rewrite Z.quot_div_nonneg by lia.
  apply Z.div_le_lower_bound; lia.
Qed.

(** X2: a candidate with a prescaler above 1 has a count of at least 512, so
    at most one bit of the 10-bit counter is left unused. *)
Theorem prescaled_count_at_least_512 f pll c :
  0 < f -> (pll < length CKM)%nat -> evaluate f pll = Some c ->
  0 < c_lg c -> 512 <= c_cnt c.
Proof. exact (prescaled_count f pll c). Qed.

Lemma prescaled_count_at_least_512_witness :
  0 < 10 /\ (3 < length CKM)%nat
  /\ evaluate 10 3 = Some (mkCandidate 13 586 1706)
  /\ 0 < 13 /\ 512 <= 586.
Proof.
  split; [lia |]. split; [simpl; lia |]. split; [reflexivity |].
  split; [lia |].
  apply (prescaled_count_at_least_512 10 3 (mkCandidate 13 586 1706));
    [lia | simpl; lia | reflexivity | simpl; lia].
Defined.

(** The frequency computed for a candidate against the target. *)
Lemma actual_near_target f p c :
  0 < f -> (p < length CKM)%nat -> evaluate f p = Some c ->
  2 * c_cnt c
  * Z.abs (actual_of (mkSaved p (c_lg c) (c_cnt c) (c_dif c)) - f)
  < f + c_cnt c.
Proof.
  intros Hf Hp Ec.
  destruct (evaluate_sound f p c Hf Hp Ec) as (_ & _ & Hlg & _ & Hcnt & _).
  destruct (actual_exact p (c_lg c) (c_cnt c) (c_dif c) Hp Hlg Hcnt)
    as [EA _].
  rewrite EA.
  destruct (clock_exact p Hp) as (_ & Hm & _).
  destruct (prescaler_exact (c_lg c) Hlg) as (_ & _ & HP).
  assert (HF : 0 <= F_CPU * CKM_at p) by (unfold F_CPU; lia).
  pose proof (count_bracket f p c Hf Hp Ec) as H1.
  pose proof (half_up_bracket (F_CPU * CKM_at p) (2 ^ c_lg c * c_cnt c)
                HF ltac:(nia)) as H2.
  cbv zeta in H2.
  set (A := (F_CPU * CKM_at p * 2 ÷ (2 ^ c_lg c * c_cnt c) + 1) ÷ 2) in *.
  set (P := 2 ^ c_lg c) in *. set (n := c_cnt c) in *.
  assert (Hup : (2 * A - 1) * n < (2 * n + 1) * f).
  { apply (Z.mul_lt_mono_pos_l P); lia. }
  assert (Hdn : (2 * n - 1) * f < (2 * A + 1) * n).
  { apply (Z.mul_lt_mono_pos_l P); lia. }
  destruct (Z.abs_spec (A - f)) as [[_ ->] | [_ ->]]; lia.
Qed.

(** X3: on success the frequency reported differs from the one requested by
    less than [f / (2 * svCNT) + 1/2]; as the count is at least 4, by less
    than an eighth of the request plus one half. *)
Theorem set_accuracy this f :
  0 < f -> returned (set this f) <> -1 ->
  2 * svCNT (search f) * Z.abs (returned (set this f) - f)
  < f + svCNT (search f)
  /\ 8 * Z.abs (returned (set this f) - f) < f + 4.
Proof.
  intros Hf Hok. rewrite (set_positive this f Hf) in Hok |- *.
  destruct (Z.ltb_spec (svDIF (search f)) 0x7FFFFFFF) as [Hlt | Hge];
    [| cbn in Hok; congruence].
  cbn [returned].
  destruct (search_found f Hf Hlt) as (p & c & Hp & Ec & E & _).
  destruct (evaluate_sound f p c Hf Hp Ec) as (_ & _ & _ & _ & Hcnt & _).
  pose proof (actual_near_target f p c Hf Hp Ec) as Hmain.
  rewrite E. cbn [svCNT].
  set (A := actual_of (mkSaved p (c_lg c) (c_cnt c) (c_dif c))) in *.
  split; [exact Hmain |].
  destruct (Z.eq_dec (Z.abs (A - f)) 0) as [-> | Hnz]; [lia |].
  pose proof (Z.abs_nonneg (A - f)).
  assert (2 * 4 * Z.abs (A - f) <= 2 * c_cnt c * Z.abs (A - f)) by nia.
  nia.
Qed.

Lemma set_accuracy_witness :
  0 < 18285714 /\ returned (set initial 18285714) <> -1
  /\ 2 * svCNT (search 18285714)
     * Z.abs (returned (set initial 18285714) - 18285714)
     < 18285714 + svCNT (search 18285714)
  /\ 8 * Z.abs (returned (set initial 18285714) - 18285714) < 18285714 + 4.
Proof.
  split; [lia |]. split; [vm_compute; discriminate |].
  apply (set_accuracy initial 18285714); [lia | vm_compute; discriminate].
Defined.

(** The bound of X3 is nearly met at the top of the range. *)
Example accuracy_at_the_top :
  returned (set initial 18285714) = 16000000
  /\ 8 * Z.abs (16000000 - 18285714) = 18285714 - 2.
Proof. vm_compute. auto. Qed.

(** ** The value stored *)

Lemma actual_upper pll lg cnt dif :
  (pll < length CKM)%nat -> pll <> 1%nat ->
  0 <= lg <= 14 -> 4 <= cnt <= 1023 ->
  actual_of (mkSaved pll lg cnt dif) <= F_CPU.
Proof.
  intros Hp Hne Hlg Hcnt.
  destruct (actual_exact pll lg cnt dif Hp Hlg Hcnt) as [E _]. rewrite E.
  destruct (clock_exact pll Hp) as (_ & Hm & H4). specialize (H4 Hne).
  destruct (prescaler_exact lg Hlg) as (_ & _ & HP).
  unfold F_CPU.
  set (CK := 16000000 * CKM_at pll).
  assert (HD : 4 <= 2 ^ lg * cnt) by nia.
  assert (Hq : 0 <= CK * 2 ÷ (2 ^ lg * cnt) <= 32000000).
  { rewrite Z.quot_div_nonneg by lia. split.
    - apply Z.div_pos; lia.
    - apply Z.div_le_upper_bound; nia. }
  rewrite Z.quot_div_nonneg by lia.
  assert ((CK * 2 ÷ (2 ^ lg * cnt) + 1) / 2 < 16000001)
    by (apply Z.div_lt_upper_bound; lia).
  lia.
Qed.

(** What [set] stores on a positive target is a frequency between 1 Hz and
    the crystal rate. *)
Lemma actual_of_search_range f :
  0 < f -> svDIF (search f) < 0x7FFFFFFF ->
  1 <= actual_of (search f) <= F_CPU.
Proof.
  intros Hf Hlt.
  destruct (actual_of_search f Hf Hlt) as [_ Hlow].
  destruct (search_found f Hf Hlt) as (p & c & Hp & Ec & E & _).
  destruct (evaluate_sound f p c Hf Hp Ec) as (Hne & _ & Hlg & _ & Hcnt & _).
  split; [lia |]. rewrite E. apply actual_upper; assumption.
Qed.

Lemma perform_bounded this c :
  0 <= _FreqGenVal this <= F_CPU ->
  0 <= _FreqGenVal (after (perform this c)) <= F_CPU.
Proof.
  intros H. destruct c as [f |]; [| exact H].
  cbn [perform].
  destruct (Z.lt_trichotomy f 0) as [Hneg | [-> | Hpos]].
  - unfold set. destruct (Z.ltb_spec f 0); [exact H | lia].
  - change (0 <= 0 <= F_CPU). unfold F_CPU. lia.
  - rewrite (set_positive this f Hpos).
    destruct (Z.ltb_spec (svDIF (search f)) 0x7FFFFFFF) as [Hlt | Hge];
      [| exact H].
    cbn [after _FreqGenVal].
    pose proof (actual_of_search_range f Hpos Hlt). lia.
Qed.

Lemma run_bounded cs : 0 <= _FreqGenVal (run cs) <= F_CPU.
Proof.
  assert (H : forall this, 0 <= _FreqGenVal this <= F_CPU ->
                0 <= _FreqGenVal
                       (fold_left (fun g c => after (perform g c)) cs this)
                  <= F_CPU).
  { induction cs as [| c cs IH]; intros this H0; cbn [fold_left].
    - exact H0.
    - apply IH. apply perform_bounded. exact H0. }
  apply (H initial). cbn. unfold F_CPU. lia.
Qed.

(** X4: from the initial object, after any sequence of calls, the stored
    frequency lies between 0 and the crystal rate of 16 MHz ("Max frequency is
    crystal clock rate"), although targets above it are accepted. *)
Theorem stored_frequency_at_most_crystal cs :
  0 <= read (run cs) <= 16000000.
Proof. exact (run_bounded cs). Qed.

(** Targets between 16 MHz and the top of the range all give 16 MHz. *)
Example above_crystal_gives_crystal :
  returned (set initial 16000001) = 16000000
  /\ returned (set initial 18285714) = 16000000.
Proof. vm_compute. auto. Qed.

(** ** The range of frequencies that can be set *)

Lemma shift_of_exact f pll :
  0 < f -> (pll < length CKM)%nat ->
  shift_of f pll = Z.log2_up (F_CPU * CKM_at pll / (f * 1024) + 1).
Proof.
  intros Hf Hp.
  destruct (estimate_exact f pll Hf Hp) as [E R].
  destruct (clock_exact pll Hp) as (_ & Hm & _).
  unfold shift_of. destruct (log2_of_spec _ R) as [_ ->]. rewrite E.
  rewrite quot_quot; [reflexivity | unfold F_CPU; lia | lia | lia].
Qed.

Lemma count_of_exact f pll :
  0 < f -> (pll < length CKM)%nat -> 0 <= shift_of f pll <= 14 ->
  count_of f pll (shift_of f pll)
  = (F_CPU * CKM_at pll * 2 / (2 ^ shift_of f pll * f) + 1) / 2.
Proof.
  intros Hf Hp Hs.
  destruct (count_exact f pll Hf Hp ltac:(lia)) as [E _]. rewrite E.
  destruct (clock_exact pll Hp) as (_ & Hm & _).
  destruct (prescaler_exact _ Hs) as (_ & _ & HP).
  rewrite quot_quot by (unfold F_CPU; lia).
  apply Z.quot_div_nonneg; [| lia].
  assert (0 <= F_CPU * CKM_at pll * 2 / (2 ^ shift_of f pll * f)); [| lia].
  apply Z.div_pos; [unfold F_CPU; lia | nia].
Qed.

Lemma evaluate_none_above f pll :
  18285714 < f -> (pll < length CKM)%nat -> evaluate f pll = None.
Proof.
  intros Hf Hp. destruct (evaluate f pll) as [c |] eqn:Ec; [| reflexivity].
  exfalso.
  destruct (evaluate_sound f pll c ltac:(lia) Hp Ec)
    as (Hne & _ & Hlg & Ecnt & Hcnt & _).
  destruct (clock_exact pll Hp) as (_ & Hm & H4). specialize (H4 Hne).
  destruct (prescaler_exact _ Hlg) as (_ & _ & HP).
  pose proof (product_bound (F_CPU * CKM_at pll) f (2 ^ c_lg c)
                ltac:(lia) ltac:(lia) ltac:(unfold F_CPU; lia)) as Hprod.
  rewrite <- Ecnt in Hprod. destruct (Hprod ltac:(lia)) as [_ Hb].
  unfold F_CPU in Hb.
  assert (4 * f <= 2 ^ c_lg c * c_cnt c * f) by nia.
  lia.
Qed.

Lemma feasible_high f :
  32000000 < 7 * f -> f <= 18285714 -> exists c, evaluate f 2 = Some c.
Proof.
  intros Hlo Hhi. apply evaluate_some_iff.
  assert (Hp : (2 < length CKM)%nat) by (simpl; lia).
  assert (Hs : shift_of f 2 = 0).
  { rewrite shift_of_exact by lia.
    change (F_CPU * CKM_at 2) with 64000000.
    rewrite Z.div_small by lia. reflexivity. }
  split; [discriminate |]. rewrite Hs. split; [lia |].
  rewrite <- Hs. rewrite count_of_exact by lia. rewrite Hs.
  change (F_CPU * CKM_at 2 * 2) with 128000000.
  change (2 ^ 0) with 1.
  assert (7 <= 128000000 / (1 * f)) by (apply Z.div_le_lower_bound; lia).
  assert (128000000 / (1 * f) < 28) by (apply Z.div_lt_upper_bound; lia).
  split.
  - apply Z.div_le_lower_bound; lia.
  - assert ((128000000 / (1 * f) + 1) / 2 < 1024)
      by (apply Z.div_lt_upper_bound; lia).
    lia.
Qed.

Lemma feasible_low f :
  0 < f -> 7 * f <= 32000000 ->
  (exists c, evaluate f 0 = Some c) \/ (exists c, evaluate f 3 = Some c).
Proof.
  intros Hf Hlo.
  assert (Hp0 : (0 < length CKM)%nat) by (simpl; lia).
  assert (Hp3 : (3 < length CKM)%nat) by (simpl; lia).
  pose proof (shift_of_exact f 0 Hf Hp0) as EL.
  change (F_CPU * CKM_at 0) with 16000000 in EL.
  set (CV := 16000000 / (f * 1024)) in *.
  assert (HCV : 0 <= CV <= 15625).
  { split; [apply Z.div_pos; lia | apply Z.div_le_upper_bound; lia]. }
  assert (HCVm : CV * (f * 1024) <= 16000000 < (CV + 1) * (f * 1024)).
  { pose proof (Z.mul_div_le 16000000 (f * 1024) ltac:(lia)).
    pose proof (Z.mul_succ_div_gt 16000000 (f * 1024) ltac:(lia)).
    fold CV in H, H0. lia. }
  set (L := shift_of f 0) in *.
  assert (HL : 0 <= L <= 14).
  { rewrite EL. split; [apply Z.log2_up_nonneg |].
    change 14 with (Z.log2_up 16384). apply Z.log2_up_le_mono. lia. }
  destruct (prescaler_exact L HL) as (_ & _ & HP).
  assert (HCVP : CV < 2 ^ L).
  { destruct (Z.eq_dec CV 0) as [E0 | Hne]; [lia |].
    pose proof (Z.log2_up_spec (CV + 1) ltac:(lia)) as [_ Hup].
    rewrite <- EL in Hup. lia. }
  assert (HPf : 2 ^ L = 1 \/ 2 ^ L * (f * 1024) <= 32000000).
  { destruct (Z.eq_dec L 0) as [-> | Hne]; [left; reflexivity | right].
    assert (Hpow : 2 ^ L = 2 * 2 ^ (L - 1)).
    { replace L with (Z.succ (L - 1)) at 1 by lia.
      apply Z.pow_succ_r. lia. }
    assert (H1 : 1 < CV + 1).
    { destruct (Z.eq_dec CV 0) as [E0 | Hn0]; [| lia].
      rewrite E0 in EL. change (Z.log2_up (0 + 1)) with 0 in EL. lia. }
    pose proof (Z.log2_up_spec (CV + 1) H1) as [Hlow _].
    rewrite <- EL in Hlow.
    replace (Z.pred L) with (L - 1) in Hlow by lia.
    assert (2 ^ (L - 1) <= CV) by lia.
    assert (0 < f * 1024) by lia. nia. }
  pose proof (count_of_exact f 0 Hf Hp0 HL) as EC. fold L in EC.
  change (F_CPU * CKM_at 0 * 2) with 32000000 in EC.
  destruct (count_exact f 0 Hf Hp0 ltac:(fold L; lia)) as [EC' HC'].
  rewrite <- EC' in HC'. clear EC'. fold L in HC'.
  set (q := 32000000 / (2 ^ L * f)) in *.
  assert (Hq : 7 <= q).
  { apply Z.div_le_lower_bound; [nia |]. destruct HPf as [-> | H]; lia. }
  assert (Hqm : q * (2 ^ L * f) <= 32000000).
  { pose proof (Z.mul_div_le 32000000 (2 ^ L * f) ltac:(nia)).
    fold q in H. lia. }
  assert (H4 : 4 <= count_of f 0 L).
  { rewrite EC. apply Z.div_le_lower_bound; lia. }
  destruct (Z_le_gt_dec (count_of f 0 L) 1023) as [Hok | Hbig].
  - left. apply evaluate_some_iff. fold L.
    split; [discriminate |]. split; lia.
  - right. apply evaluate_some_iff.
    assert (Hq2047 : 2047 <= q).
    { destruct (Z_lt_le_dec q 2047) as [Hlt | ]; [exfalso | assumption].
      assert ((q + 1) / 2 < 1024) by (apply Z.div_lt_upper_bound; lia).
      lia. }
    set (g := 2 ^ L * f) in *.
    assert (Hg : 15626 <= g <= 15632) by (unfold g in *; nia).
    assert (HL12 : L <= 12).
    { destruct (Z_le_gt_dec L 12) as [ | Hgt]; [assumption | exfalso].
      assert (HLc : L = 13 \/ L = 14) by lia.
      unfold g in Hg. destruct HLc as [E | E]; rewrite E in Hg.
      - change (2 ^ 13) with 8192 in Hg. lia.
      - change (2 ^ 14) with 16384 in Hg. lia. }
    pose proof (shift_of_exact f 3 Hf Hp3) as EL3.
    change (F_CPU * CKM_at 3) with 48000000 in EL3.
    assert (Hpow2 : 2 ^ (L + 2) = 4 * 2 ^ L).
    { rewrite Z.pow_add_r by lia. change (2 ^ 2) with 4. lia. }
    assert (Hpow1 : 2 ^ (L + 1) = 2 * 2 ^ L).
    { rewrite Z.pow_add_r by lia. change (2 ^ 1) with 2. lia. }
    assert (HCV3 : 2 * 2 ^ L <= 48000000 / (f * 1024) < 4 * 2 ^ L).
    { split.
      - apply Z.div_le_lower_bound; [lia |]. unfold g in Hg. nia.
      - apply Z.div_lt_upper_bound; [lia |]. unfold g in Hg. nia. }
    assert (EL3' : shift_of f 3 = L + 2).
    { rewrite EL3. apply Z.log2_up_unique; [lia |].
      replace (Z.pred (L + 2)) with (L + 1) by lia.
      rewrite Hpow1, Hpow2. lia. }
    split; [discriminate |]. split; [lia |].
    rewrite count_of_exact by lia. rewrite EL3'.
    change (F_CPU * CKM_at 3 * 2) with 96000000.
    rewrite Hpow2.
    assert (1000 <= 96000000 / (4 * 2 ^ L * f))
      by (apply Z.div_le_lower_bound; unfold g in Hg; nia).
    assert (96000000 / (4 * 2 ^ L * f) < 2000)
      by (apply Z.div_lt_upper_bound; unfold g in Hg; nia).
    split.
    + apply Z.div_le_lower_bound; lia.
    + assert ((96000000 / (4 * 2 ^ L * f) + 1) / 2 < 1024)
        by (apply Z.div_lt_upper_bound; lia).
      lia.
Qed.

(** X5: a positive target can be set exactly when it is at most
    18,285,714 Hz (the largest [f] with [2 * 64 MHz / f >= 7]): every target
    from 1 Hz up to it gives a configuration, every target above it returns
    -1. *)
Theorem set_succeeds_iff_in_range this f :
  0 < f -> (returned (set this f) = -1 <-> 18285714 < f).
Proof.
  intros Hf. rewrite (set_positive this f Hf).
  destruct (Z.ltb_spec (svDIF (search f)) 0x7FFFFFFF) as [Hlt | Hge];
    cbn [returned].
  - destruct (actual_of_search f Hf Hlt) as [_ Hact].
    split; [lia |]. intros Hbig. exfalso.
    assert (Hnone : forall p, (p < length CKM)%nat -> evaluate f p = None)
      by (intros p Hp; apply evaluate_none_above; assumption).
    apply (search_none f Hf) in Hnone. lia.
  - split; [| reflexivity]. intros _.
    destruct (Z_le_gt_dec f 18285714) as [Hle | Hgt]; [exfalso | lia].
    pose proof (proj1 (search_none f Hf) Hge) as Hnone.
    destruct (Z_le_gt_dec (7 * f) 32000000) as [Hlow | Hhigh].
    + destruct (feasible_low f Hf Hlow) as [[c Ec] | [c Ec]].
      * rewrite (Hnone 0%nat) in Ec; [discriminate | simpl; lia].
      * rewrite (Hnone 3%nat) in Ec; [discriminate | simpl; lia].
    + destruct (feasible_high f ltac:(lia) Hle) as [c Ec].
      rewrite (Hnone 2%nat) in Ec; [discriminate | simpl; lia].
Qed.

Lemma set_succeeds_iff_in_range_witness :
  0 < 977 /\ (returned (set initial 977) = -1 <-> 18285714 < 977).
Proof.
  split; [lia |]. apply (set_succeeds_iff_in_range initial 977). lia.
Defined.

(** At 977 Hz the 16 MHz and the 64 MHz source both round to a count of 1024
    and are refused; the 48 MHz source is the only candidate. *)
Example only_48MHz_at_977Hz :
  count_of 977 0 (shift_of 977 0) = 1024
  /\ count_of 977 2 (shift_of 977 2) = 1024
  /\ evaluate 977 0 = None /\ evaluate 977 2 = None
  /\ evaluate 977 3 = Some (mkCandidate 6 768 7168)
  /\ returned (set initial 977) = 977.
Proof. vm_compute. repeat split. Qed.

(** ** What is written to the timer *)





(** ** Calling [set] again *)

(** X7: [set] is idempotent: a second call with the same argument returns the
    same value, leaves the same object and makes the same hardware accesses as
    the first, whether the first succeeded, failed, disabled or queried. *)
Theorem set_idempotent this f :
  set (after (set this f)) f = set this f.
Proof.
  destruct (Z.lt_trichotomy f 0) as [Hneg | [-> | Hpos]].
  - unfold set. destruct (Z.ltb_spec f 0) as [_ | Hge]; [| lia].
    cbn [after]. destruct (Z.ltb_spec f 0) as [_ | Hge]; [| lia].
    reflexivity.
  - reflexivity.
  - rewrite !(set_positive _ f Hpos).
    destruct (svDIF (search f) <? 0x7FFFFFFF); reflexivity.
Qed.

(** A failed [set] is as if it had not been called: the object is the one
    before, so whatever is called next behaves as it would have. *)
Lemma set_failing this g :
  0 < g -> returned (set this g) = -1 -> set this g = mkOutcome (-1) this [].
Proof.
  intros Hg Hfail.
  destruct (Z_lt_le_dec (svDIF (search g)) 0x7FFFFFFF) as [Hlt | Hge].
  - exfalso.
    pose proof (actual_of_search g Hg Hlt) as [_ Hact].
    revert Hfail. rewrite (set_positive this g Hg).
    destruct (Z.ltb_spec (svDIF (search g)) 0x7FFFFFFF) as [_ | Hge]; [| lia].
    cbn [returned]. lia.
  - rewrite (set_positive this g Hg).
    destruct (Z.ltb_spec (svDIF (search g)) 0x7FFFFFFF) as [Hlt | _]; [lia |].
    reflexivity.
Qed.

(** ** Resolution at low frequencies *)

(** Up to 15,625 Hz every clock source needs the prescaler. *)
Lemma low_target_is_prescaled f pll c :
  0 < f <= 15625 -> (pll < length CKM)%nat -> evaluate f pll = Some c ->
  0 < c_lg c.
Proof.
  intros Hf Hp Ec.
  destruct (evaluate_sound f pll c ltac:(lia) Hp Ec) as (_ & Elg & _).
  destruct (clock_exact pll Hp) as (_ & Hm & _).
  rewrite Elg, shift_of_exact by lia.
  assert (1 <= F_CPU * CKM_at pll / (f * 1024))
    by (apply Z.div_le_lower_bound; unfold F_CPU; lia).
  change 0 with (Z.pred (Z.log2_up 2)). apply Z.lt_pred_le.
  apply Z.log2_up_le_mono. lia.
Qed.

(** X8: every target from 1 Hz to 15,625 Hz is accepted, and the frequency
    reported is within [f / 1024 + 1] Hz of it: the count in use is then at
    least 512. *)
Theorem low_target_accuracy this f :
  0 < f <= 15625 ->
  returned (set this f) <> -1
  /\ 512 <= svCNT (search f)
  /\ 1024 * Z.abs (returned (set this f) - f) < f + 1024.
Proof.
  intros Hf.
  assert (Hpos : 0 < f) by lia.
  assert (Hlt : svDIF (search f) < 0x7FFFFFFF).
  { destruct (Z_lt_le_dec (svDIF (search f)) 0x7FFFFFFF) as [H | Hge];
      [exact H | exfalso].
    pose proof (proj1 (search_none f Hpos) Hge) as Hnone.
    destruct (feasible_low f Hpos ltac:(lia)) as [[c Ec] | [c Ec]].
    - rewrite (Hnone 0%nat) in Ec; [discriminate | simpl; lia].
    - rewrite (Hnone 3%nat) in Ec; [discriminate | simpl; lia]. }
  rewrite (set_positive this f Hpos).
  destruct (Z.ltb_spec (svDIF (search f)) 0x7FFFFFFF) as [_ | Hge]; [| lia].
  cbn [returned].
  destruct (actual_of_search f Hpos Hlt) as [_ Hact].
  destruct (search_found f Hpos Hlt) as (p & c & Hp & Ec & E & _).
  destruct (evaluate_sound f p c Hpos Hp Ec) as (_ & _ & _ & _ & Hcnt & _).
  pose proof (low_target_is_prescaled f p c Hf Hp Ec) as Hpre.
  pose proof (prescaled_count f p c Hpos Hp Ec Hpre) as H512.
  pose proof (actual_near_target f p c Hpos Hp Ec) as Hmain.
  split; [lia |].
  rewrite E. cbn [svCNT].
  set (A := actual_of (mkSaved p (c_lg c) (c_cnt c) (c_dif c))) in *.
  split; [exact H512 |].
  pose proof (Z.abs_nonneg (A - f)).
  assert (1024 * Z.abs (A - f) <= 2 * c_cnt c * Z.abs (A - f)) by nia.
  lia.
Qed.

Lemma low_target_accuracy_witness :
  0 < 977 <= 15625
  /\ returned (set initial 977) <> -1
  /\ 512 <= svCNT (search 977)
  /\ 1024 * Z.abs (returned (set initial 977) - 977) < 977 + 1024.
Proof.
  split; [lia |]. apply (low_target_accuracy initial 977). lia.
Defined.

(** * The generator helpers of the example application *)

(** X9: for every index of the table, [SetFreqGenfromIndex] leaves the
    generator at exactly the frequency of the table (0 for index 0, which
    switches it off) and does program the timer; for an index past the table
    it does nothing. *)
Theorem SetFreqGenfromIndex_exact FG Idx :
  ((Idx < NUMFREQS)%nat ->
   read (fst (SetFreqGenfromIndex FG Idx)) = nth Idx Freqs 0
   /\ snd (SetFreqGenfromIndex FG Idx) <> [])
  /\ ((NUMFREQS <= Idx)%nat -> SetFreqGenfromIndex FG Idx = (FG, [])).
Proof.
  split.
  - intros Hidx.
    do 19 (destruct Idx as [| Idx];
           [vm_compute; split; [reflexivity | discriminate] |]).
    vm_compute in Hidx. lia.
  - intros Hidx. unfold SetFreqGenfromIndex.
    destruct (Nat.leb_spec NUMFREQS Idx); [reflexivity | lia].
Qed.

(** ** The frequency line of the display *)

Lemma string_length_append s1 s2 :
  String.length (String.append s1 s2)
  = (String.length s1 + String.length s2)%nat.
Proof. induction s1 as [| a s1 IH]; simpl; [reflexivity | rewrite IH; reflexivity]. Qed.

Lemma digits_small n : n < 10 -> String.length (digits n) = 1%nat.
Proof.
  intros Hn. rewrite digits_equation_1.
  destruct (Z_lt_dec n 10) as [Hlt | Hge]; [reflexivity | contradiction].
Qed.

Lemma digits_large n :
  10 <= n -> String.length (digits n) = S (String.length (digits (n / 10))).
Proof.
  intros Hn. rewrite (digits_equation_1 n).
  destruct (Z_lt_dec n 10) as [Hlt | Hge]; [lia |].
  cbn [digits_unfold_clause_1]. rewrite string_length_append. simpl. lia.
Qed.

Lemma digits_length_pos n : (1 <= String.length (digits n))%nat.
Proof.
  destruct (Z_lt_le_dec n 10) as [Hlt | Hge].
  - rewrite digits_small; lia.
  - rewrite digits_large; lia.
Qed.

Lemma digits_length_le k : forall n,
  n < 10 ^ Z.of_nat (S k) -> (String.length (digits n) <= S k)%nat.
Proof.
  induction k as [| k IH]; intros n Hn.
  - rewrite digits_small; [lia | exact Hn].
  - destruct (Z_lt_le_dec n 10) as [Hlt | Hge].
    + rewrite digits_small; lia.
    + rewrite digits_large by exact Hge.
      apply le_n_S. apply IH.
      rewrite Nat2Z.inj_succ, Z.pow_succ_r in Hn by lia.
      apply Z.div_lt_upper_bound; lia.
Qed.

Lemma digits_length_gt k : forall n,
  10 ^ Z.of_nat k <= n -> (k < String.length (digits n))%nat.
Proof.
  induction k as [| k IH]; intros n Hn.
  - destruct (Z_lt_le_dec n 10) as [Hlt | Hge].
    + rewrite digits_small; lia.
    + rewrite digits_large; lia.
  - rewrite Nat2Z.inj_succ, Z.pow_succ_r in Hn by lia.
    assert (0 < 10 ^ Z.of_nat k) by (apply Z.pow_pos_nonneg; lia).
    rewrite digits_large by lia.
    apply -> Nat.succ_lt_mono. apply IH.
    apply Z.div_le_lower_bound; lia.
Qed.

(** X10: [ShowGenFreq] changes neither the generator nor the timer.  While the
    frequency is below 10 MHz the blanks and the text printed after "Gen="
    are 12 characters together.  From 10 MHz on, which [set] does reach, the
    text is 13 characters, the byte holding [12 - strlen(St)] wraps, and 255
    blanks are printed. *)
Theorem ShowGenFreq_padding cs :
  let FG := run cs in
  let St := String.append (decimal (read FG)) "  Hz "%string in
  exists pads,
    ShowGenFreq FG
    = (FG, [],
       [LcdSetCursor 0 1; LcdPrint "Gen="%string]
       ++ repeat (LcdPrint " "%string) pads ++ [LcdPrint St])
    /\ (read FG < 10000000 -> (pads + String.length St = 12)%nat)
    /\ (10000000 <= read FG -> pads = 255%nat /\ String.length St = 13%nat).
Proof.
  intros FG St.
  pose proof (run_bounded cs) as Hv. fold FG in Hv. unfold F_CPU in Hv.
  unfold St, read. clearbody FG. destruct FG as [v]. cbn [_FreqGenVal] in *.
  unfold ShowGenFreq.
  change (set (mkGen v) (-1)) with (mkOutcome v (mkGen v) []).
  cbn [returned after io].
  assert (Edec : decimal v = digits v).
  { unfold decimal. destruct (Z.ltb_spec v 0); [lia | reflexivity]. }
  rewrite Edec.
  assert (Elen : String.length (String.append (digits v) "  Hz ")
                 = (String.length (digits v) + 5)%nat)
    by (rewrite string_length_append; reflexivity).
  rewrite Elen.
  pose proof (digits_length_pos v) as H1.
  eexists. split; [reflexivity |]. split.
  - intros Hlt.
    pose proof (digits_length_le 6 v ltac:(simpl; lia)) as H7.
    rewrite wrap_unsigned_small by lia.
    rewrite wrap_byte_small by lia. lia.
  - intros Hge.
    pose proof (digits_length_le 7 v ltac:(simpl; lia)) as H8.
    pose proof (digits_length_gt 7 v ltac:(simpl; lia)) as H8'.
    assert (E8 : String.length (digits v) = 8%nat) by lia.
    rewrite E8. split; reflexivity.
Qed.

(** 12 MHz can be set, and the display line then gets 255 blanks. *)
Example ShowGenFreq_at_12MHz :
  returned (set initial 12000000) = 12000000
  /\ snd (ShowGenFreq (after (set initial 12000000)))
     = [LcdSetCursor 0 1; LcdPrint "Gen="%string]
       ++ repeat (LcdPrint " "%string) 255
       ++ [LcdPrint "12000000  Hz "%string].
Proof. vm_compute. auto. Qed.
